(** * MediafileAutoFormatter: season / episode resolution

    A shallow embedding of [src/analyzer/media_analyzer.py] and of
    [src/restructor/subtitle_extractor.py], and the properties of the
    season/episode resolution heuristic proved about it.

    Conventions of the embedding.
    - A Python [str] is a [string].  The embedding of [str.isnumeric],
      [int] and [str.lower] is exact on ASCII strings, where
      [str.isnumeric] is "non-empty and all characters in 0..9" and
      [str.lower] only touches A..Z.  Beyond ASCII, Python counts further
      Unicode numerals as numeric, and [int] reads some of them and raises
      [ValueError] on others, which [_get_episodes] does not catch: the
      theorems that state what episode extraction returns for whole files
      or trees assume ASCII titles.
    - A Python [int] is an [N] (every integer the analyzer builds comes from
      [int] applied to a run of decimal digits).
    - A [dict] is a [gmap]; [d[k] = v] is [<[k:=v]> d] and [d.get(k)] is
      [d !! k].
    - [logger] calls append to a list of diagnostics, exceptions are the
      left summand of the result: see the monad [M] below. *)

From Stdlib Require Import Ascii.
From Stdlib Require String.
From stdpp Require Import base option list gmap strings.

(** ** Python string primitives *)

Module PyStr.

Definition is_digit (c : ascii) : bool :=
  let n := nat_of_ascii c in (48 <=? n)%nat && (n <=? 57)%nat.

Definition digit_val (c : ascii) : N := N.of_nat (nat_of_ascii c - 48).

(** [str.isnumeric()] on ASCII text: exact on ASCII strings, and false on
    the other Unicode numerals that Python also counts as numeric. *)
Fixpoint all_digits (s : string) : bool :=
  match s with
  | EmptyString => true
  | String c r => is_digit c && all_digits r
  end.

Definition isnumeric (s : string) : bool :=
  match s with
  | EmptyString => false
  | _ => all_digits s
  end.

(** [int(s)] for a string of the decimal digits 0..9; there [int] never
    raises [ValueError]. *)
Fixpoint int_acc (acc : N) (s : string) : N :=
  match s with
  | EmptyString => acc
  | String c r => int_acc (10 * acc + digit_val c) r
  end.

Definition int (s : string) : N := int_acc 0 s.

(** [str.lower()]. *)
Definition lower_char (c : ascii) : ascii :=
  let n := nat_of_ascii c in
  if (65 <=? n)%nat && (n <=? 90)%nat then ascii_of_nat (n + 32) else c.

Fixpoint lower (s : string) : string :=
  match s with
  | EmptyString => EmptyString
  | String c r => String (lower_char c) (lower r)
  end.

(** [sub in s]. *)
Fixpoint contains (sub s : string) : bool :=
  String.prefix sub s ||
  match s with
  | EmptyString => false
  | String _ r => contains sub r
  end.

(** [s.split(sep)] for a one-character separator: empty tokens are kept,
    and the empty string splits into one empty token. *)
Fixpoint split (sep : ascii) (s : string) : list string :=
  match s with
  | EmptyString => [EmptyString]
  | String c r =>
      if Ascii.eqb c sep then EmptyString :: split sep r
      else match split sep r with
           | t :: ts => String c t :: ts
           | [] => [String c EmptyString]
           end
  end.

(** [s.replace(old, new)]: every non-overlapping occurrence of [old],
    scanning from the left.  [skip] counts the characters of an occurrence
    that are still to be passed over.  With an empty [old] Python inserts
    [new] before every character and at the end. *)
Fixpoint replace_from (old new : string) (skip : nat) (s : string) : string :=
  match s with
  | EmptyString => EmptyString
  | String c r =>
      match skip with
      | S k => replace_from old new k r
      | O =>
          if String.prefix old s
          then new +:+ replace_from old new (String.length old - 1) r
          else String c (replace_from old new 0 r)
      end
  end.

Fixpoint intersperse (new s : string) : string :=
  match s with
  | EmptyString => new
  | String c r => new +:+ String c (intersperse new r)
  end.

Definition replace (old new s : string) : string :=
  match old with
  | EmptyString => intersperse new s
  | _ => replace_from old new 0 s
  end.

(** The maximal run of digits at the head of [s], and what follows it. *)
Fixpoint span_digits (s : string) : string * string :=
  match s with
  | EmptyString => (EmptyString, EmptyString)
  | String c r =>
      if is_digit c
      then let '(d, rest) := span_digits r in (String c d, rest)
      else (EmptyString, s)
  end.

(** [re.finditer(r"[0-9]+", s)]: the maximal digit runs of [s], left to
    right.  [cur] is the run being read. *)
Fixpoint digit_runs_from (cur : string) (s : string) : list string :=
  match s with
  | EmptyString => if String.eqb cur "" then [] else [cur]
  | String c r =>
      if is_digit c then digit_runs_from (cur +:+ String c "") r
      else if String.eqb cur "" then digit_runs_from "" r
           else cur :: digit_runs_from "" r
  end.

Definition finditer_digits (s : string) : list string := digit_runs_from "" s.

(** One match of [S[0-9]+E[0-9]+] anchored at the head of [s].  Both runs
    are greedy; no shorter run can be followed by [E], so there is nothing
    to backtrack to. *)
Definition match_SE (s : string) : option string :=
  match s with
  | String c r =>
      if Ascii.eqb c "S" then
        let '(d1, r1) := span_digits r in
        if String.eqb d1 "" then None
        else match r1 with
             | String e r2 =>
                 if Ascii.eqb e "E" then
                   let '(d2, _) := span_digits r2 in
                   if String.eqb d2 "" then None
                   else Some ("S" +:+ d1 +:+ "E" +:+ d2)
                 else None
             | EmptyString => None
             end
      else None
  | EmptyString => None
  end.

(** [re.finditer(r"S[0-9]+E[0-9]+", s)]: non-overlapping matches, left to
    right. *)
Fixpoint finditer_SE_from (skip : nat) (s : string) : list string :=
  match s with
  | EmptyString => []
  | String _ r =>
      match skip with
      | S k => finditer_SE_from k r
      | O =>
          match match_SE s with
          | Some m => m :: finditer_SE_from (String.length m - 1) r
          | None => finditer_SE_from 0 r
          end
      end
  end.

Definition finditer_SE (s : string) : list string := finditer_SE_from 0 s.

End PyStr.

(** ** The folder / file tree

    [src/model/file.py], [src/model/folder.py] and [src/constants.py] are not
    part of the analysed sources; the tree and its queries follow the data
    model and the tree-provider interface of the specification. *)

(** Modelled from the spec: [FileType] of [src/constants.py], the four file
    types of the data model. *)
Inductive FileType := MEDIA | SUBTITLE | ARCHIVED_SUBTITLE | OTHER.

Definition FileType_eqb (a b : FileType) : bool :=
  match a, b with
  | MEDIA, MEDIA | SUBTITLE, SUBTITLE
  | ARCHIVED_SUBTITLE, ARCHIVED_SUBTITLE | OTHER, OTHER => true
  | _, _ => false
  end.

(** Modelled from the spec: the [File] class, a leaf with a title, an
    absolute path and a file type. *)
Record File := mkFile {
  file_title : string;
  file_absolute_path : string;
  get_file_type : FileType
}.

(** Modelled from the spec: the [Structable] hierarchy and the [Folder]
    class.  A folder has a title, an absolute path and an ordered snapshot
    of children of both kinds. *)
Inductive Structable :=
| AFile (f : File)
| AFolder (d : Folder)
with Folder :=
| mkFolder (title : string) (absolute_path : string) (structs : list Structable).

(** Modelled from the spec: the getters of [Folder]. *)
Definition get_title (d : Folder) : string :=
  match d with mkFolder t _ _ => t end.

Definition get_absolute_path (d : Folder) : string :=
  match d with mkFolder _ p _ => p end.

Definition get_structs (d : Folder) : list Structable :=
  match d with mkFolder _ _ ss => ss end.

Fixpoint files_of (ss : list Structable) : list File :=
  match ss with
  | [] => []
  | AFile f :: r => f :: files_of r
  | AFolder _ :: r => files_of r
  end.

Fixpoint folders_of (ss : list Structable) : list Folder :=
  match ss with
  | [] => []
  | AFile _ :: r => folders_of r
  | AFolder d :: r => d :: folders_of r
  end.

(** Modelled from the spec: direct files, in child order. *)
Definition get_files (d : Folder) : list File := files_of (get_structs d).

(** Modelled from the spec: direct subfolders, in child order. *)
Definition get_folders (d : Folder) : list Folder := folders_of (get_structs d).

(** Modelled from the spec: count of direct files matching a file-type tag. *)
Definition get_number_of_files_by_type (d : Folder) (file_type : FileType) : nat :=
  length (filter (λ f, FileType_eqb (get_file_type f) file_type = true) (get_files d)).

(** The two subtitle file types, as [_get_subtitle_file] tests them. *)
Definition is_subtitle_type (t : FileType) : bool :=
  match t with
  | SUBTITLE | ARCHIVED_SUBTITLE => true
  | _ => false
  end.

(** Modelled from the spec: the recursive containment query for subtitle
    files.  It is true when a subtitle or archived-subtitle file lies
    anywhere in the subtree of the folder. *)
Fixpoint contains_subtitle_file (d : Folder) : bool :=
  match d with
  | mkFolder _ _ ss =>
      (fix any (ss : list Structable) : bool :=
         match ss with
         | [] => false
         | AFile f :: r => is_subtitle_type (get_file_type f) || any r
         | AFolder c :: r => contains_subtitle_file c || any r
         end) ss
  end.

(** ** Diagnostics and exceptions *)

(** The calls of [logger.warning] and [logger.info]. *)
Inductive Diag :=
| LogWarning (msg : string)
| LogInfo (msg : string).

(** Modelled from the spec: the exception classes of
    [src/analyzer/error.py] and [src/restructor/errors.py]. *)
Inductive Exn :=
| MediaRootNotFoundException
| SeasonIndexNotFoundException (msg : string)
| EpisodeIndexNotFoundException
| EpisodeIndexDuplicatedException (msg : string)
| NoSubtitleFileException (msg : string).

Definition Result (A : Type) : Type := Exn + A.

(** A computation logs diagnostics and either raises or returns. *)
Definition M (A : Type) : Type := list Diag * Result A.

Definition ret {A} (a : A) : M A := ([], inr a).

Definition bind {A B} (m : M A) (k : A → M B) : M B :=
  match m with
  | (l, inl e) => (l, inl e)
  | (l, inr a) => let '(l', r) := k a in (l ++ l', r)
  end.

Definition raise {A} (e : Exn) : M A := ([], inl e).

Definition log (d : Diag) : M unit := ([d], inr tt).

Definition diagnostics {A} (m : M A) : list Diag := fst m.

Definition outcome {A} (m : M A) : Result A := snd m.

#[global] Instance M_ret : MRet M := @ret.
#[global] Instance M_bind : MBind M := λ A B k m, bind m k.

(** ** Tokens *)

(** Modelled from the spec: the [Token] class of [src/model/token.py].  A
    token is a position, a word and an occurrence count. *)
Record Token := mkToken {
  tok_idx : nat;
  get_str : string;
  get_count : nat
}.

(** Modelled from the spec: [Token(idx, str)]; the count of a new token is
    one occurrence. *)
Definition new_Token (idx : nat) (str : string) : Token := mkToken idx str 1.

(** Modelled from the spec: [Token.__eq__], two tokens are equal when
    position and word match. *)
Definition Token_eqb (a b : Token) : bool :=
  Nat.eqb (tok_idx a) (tok_idx b) && String.eqb (get_str a) (get_str b).

(** Modelled from the spec: [Token.count_up]. *)
Definition count_up (t : Token) : Token :=
  mkToken (tok_idx t) (get_str t) (S (get_count t)).

(** ** Naming heuristics *)

Section Heuristics.

(** [SeasonAlias.SEASON_ALIASES] of [src/constants.py]. *)
Variable SEASON_ALIASES : list string.

Definition contains_season_keyword (str : string) : bool :=
  existsb (λ alias, PyStr.contains alias (PyStr.lower str)) SEASON_ALIASES.

(** Every match of [[0-9]+] is numeric, so the loop returns at the first
    run; the loop is kept as written. *)
Fixpoint first_numeric (runs : list string) : option N :=
  match runs with
  | [] => None
  | str_index :: r =>
      if PyStr.isnumeric str_index then Some (PyStr.int str_index)
      else first_numeric r
  end.

Definition _extract_number_from_string (str : string) : option N :=
  first_numeric (PyStr.finditer_digits str).

Definition extract_season_index (folder_name : string) : option N :=
  if negb (contains_season_keyword folder_name) then None
  else _extract_number_from_string folder_name.

Definition replace_special_chars (str : string) : string :=
  let underscore_replaced := PyStr.replace "_" " " str in
  let dot_replaced := PyStr.replace "." " " underscore_replaced in
  dot_replaced.

End Heuristics.

(** An [Optional[int]] used as a Python condition: [None] and [0] are both
    false.  [truthy o] is [Some n] exactly when the condition holds. *)
Definition truthy (o : option N) : option N :=
  match o with
  | Some n => if N.eqb n 0 then None else Some n
  | None => None
  end.

(** Modelled from the spec: the truth value of [d.get(k)] for a dictionary
    of [File] objects.  [File] is a plain class of the data model, so every
    [File] is true and only a missing key is false. *)
Definition truthy_file (o : option File) : bool :=
  match o with
  | Some _ => true
  | None => false
  end.

(** ** Metadata

    [src/model/metadata.py] and [src/analyzer/metadata_builder.py] are not
    part of the analysed sources. *)

(** Modelled from the spec: [MediaType] of [src/constants.py]. *)
Inductive MediaType := MOVIE | TV.

(** Modelled from the spec: [SeasonMetadata], with the keyword arguments of
    its constructor as fields. *)
Record SeasonMetadata := mkSeasonMetadata {
  sm_title : string;
  sm_original_title : string;
  sm_root : Folder;
  sm_media_root : Folder;
  sm_media_files : list File;
  sm_subtitles : list File;
  sm_season_index : N;
  sm_episode_files : gmap N File
}.

(** Modelled from the spec: the metadata builder after [_analyze] of the
    base class; each getter returns what the setter stored. *)
Record MetadataBuilder := mkBuilder {
  builder_root : Folder;
  builder_title : string;
  builder_media_root : Folder;
  builder_original_title : string
}.

(** Modelled from the spec: the [Metadata] value a TV builder builds. *)
Record Metadata := mkMetadata {
  md_title : string;
  md_original_title : string;
  md_root : Folder;
  md_media_root : Folder;
  md_media_type : MediaType;
  md_seasons : gmap N SeasonMetadata
}.

(** Modelled from the spec: the [Metadata] value a movie builder builds, with
    its flat media files and subtitles. *)
Record MovieMetadata := mkMovieMetadata {
  mv_title : string;
  mv_original_title : string;
  mv_root : Folder;
  mv_media_root : Folder;
  mv_media_type : MediaType;
  mv_media_files : list File;
  mv_subtitles : list File
}.

(** ** GeneralMediaAnalyzer *)

Module GeneralMediaAnalyzer.

Definition is_media (f : File) : bool := FileType_eqb (get_file_type f) MEDIA.

Definition is_subtitle (f : File) : bool := is_subtitle_type (get_file_type f).

(** [_analyze] of the base class; [find_media_root] is the method of the
    concrete analyzer. *)
Definition _analyze (find_media_root : Folder → Result Folder) (root : Folder)
  : M MetadataBuilder :=
  match find_media_root root with
  | inl e => raise e
  | inr media_root =>
      mret (mkBuilder root (get_title root) media_root (get_title media_root))
  end.

Fixpoint _get_media_files (root : Folder) : list File :=
  match root with
  | mkFolder _ _ ss =>
      let media_files := List.filter is_media (files_of ss) in
      match media_files with
      | [] =>
          (fix extend (ss : list Structable) : list File :=
             match ss with
             | [] => []
             | AFile _ :: r => extend r
             | AFolder child :: r => _get_media_files child ++ extend r
             end) ss
      | _ :: _ => media_files
      end
  end.

Definition _get_subtitle_file (folder : Folder) : M (list File) :=
  let subtitles := List.filter is_subtitle (get_files folder) in
  if Nat.eqb (length subtitles) 0
  then
    _ ← log (LogWarning ("Subtitle must exists in "
                           +:+ get_absolute_path folder +:+ ", but not found."));
    mret subtitles
  else mret subtitles.

(** The loop of [_analyze_subtitles] over [root.get_structs()]: the first
    child folder whose containment query is true, if any. *)
Fixpoint first_subtitle_folder (structs : list Structable) : option Folder :=
  match structs with
  | [] => None
  | AFile _ :: r => first_subtitle_folder r
  | AFolder elem :: r =>
      if contains_subtitle_file elem then Some elem
      else first_subtitle_folder r
  end.

Definition _analyze_subtitles (root : Folder) : M (list File) :=
  if contains_subtitle_file root then _get_subtitle_file root
  else
    match first_subtitle_folder (get_structs root) with
    | Some elem => _get_subtitle_file elem
    | None =>
        _ ← log (LogInfo ("Subtitle not found : " +:+ get_absolute_path root));
        mret []
    end.

End GeneralMediaAnalyzer.

(** ** MovieAnalyzer *)

Module MovieAnalyzer.

Definition has_media (folder : Folder) : bool :=
  Nat.ltb 0 (get_number_of_files_by_type folder MEDIA).

Fixpoint first_with_media (folders : list Folder) : Result Folder :=
  match folders with
  | [] => inl MediaRootNotFoundException
  | folder :: r => if has_media folder then inr folder else first_with_media r
  end.

Definition _find_media_root (root : Folder) : Result Folder :=
  if has_media root then inr root
  else first_with_media (get_folders root).

(** [_analyze] of the movie analyzer: the base class first, then the
    subtitles of the root and the media files of the media root. *)
Definition _analyze (root : Folder) : M (MetadataBuilder * list File * list File) :=
  builder ← GeneralMediaAnalyzer._analyze _find_media_root root;
  subtitles ← GeneralMediaAnalyzer._analyze_subtitles root;
  let media_files :=
    GeneralMediaAnalyzer._get_media_files (builder_media_root builder) in
  mret (builder, subtitles, media_files).

Definition analyze (root : Folder) : M MovieMetadata :=
  '(builder, subtitles, media_files) ← _analyze root;
  mret (mkMovieMetadata (builder_title builder) (builder_original_title builder)
          (builder_root builder) (builder_media_root builder) MOVIE
          media_files subtitles).

End MovieAnalyzer.

(** ** TVAnalyzer *)

Module TVAnalyzer.
Section WithCollaborators.

(** [SeasonAlias.SEASON_ALIASES] of [src/constants.py]. *)
Variable SEASON_ALIASES : list string.

(** [trunc_suffix_from_file_name] of [src/formatter/subtitle_converter.py]:
    the suffix-stripping collaborator. *)
Variable trunc_suffix_from_file_name : string → string.

Definition qualifies (folder : Folder) : bool :=
  Nat.ltb 0 (get_number_of_files_by_type folder MEDIA)
  || contains_season_keyword SEASON_ALIASES (get_title folder).

Definition _find_media_root (root : Folder) : Folder :=
  let media_contained_folder := List.filter qualifies (get_folders root) in
  match media_contained_folder with
  | [folder] => folder
  | _ => root
  end.

Definition _find_season_folders (root : Folder) : list Folder :=
  List.filter (λ folder, contains_season_keyword SEASON_ALIASES (get_title folder))
              (get_folders root).

(** *** Prefix discovery *)

Fixpoint _update_saved_tokens (saved_tokens : list Token) (input_token : Token)
  : list Token :=
  match saved_tokens with
  | [] => [input_token]
  | saved_token :: r =>
      if Token_eqb saved_token input_token then count_up saved_token :: r
      else saved_token :: _update_saved_tokens r input_token
  end.

(** The inner loop: one file's tokens, numbered from [idx]. *)
Fixpoint add_tokens (saved_tokens : list Token) (idx : nat)
         (splited_tokens : list string) : list Token :=
  match splited_tokens with
  | [] => saved_tokens
  | str_token :: r =>
      add_tokens (_update_saved_tokens saved_tokens (new_Token idx str_token))
                 (S idx) r
  end.

Definition file_tokens (media_file : File) : list string :=
  PyStr.split " " (replace_special_chars (file_title media_file)).

(** The outer loop: the frequency table of a list of files. *)
Definition saved_tokens_of (files : list File) : list Token :=
  foldl (λ saved media_file, add_tokens saved 0 (file_tokens media_file)) [] files.

(** The first scan: [idx - 1] for the first entry whose count is at most
    one, and [-1] when there is none. *)
Fixpoint prefix_token_last_index_from (idx : Z) (saved_tokens : list Token) : Z :=
  match saved_tokens with
  | [] => (-1)%Z
  | t :: r =>
      if (get_count t <=? 1)%nat then (idx - 1)%Z
      else prefix_token_last_index_from (idx + 1)%Z r
  end.

(** The second scan: the words up to [prefix_token_last_index], each
    followed by a space. *)
Fixpoint build_prefix (prefix_token_last_index idx : Z) (prefix : string)
         (saved_tokens : list Token) : string :=
  match saved_tokens with
  | [] => prefix
  | t :: r =>
      if (prefix_token_last_index <? idx)%Z then prefix
      else build_prefix prefix_token_last_index (idx + 1)%Z
                        (prefix +:+ (get_str t +:+ " ")) r
  end.

Definition _get_file_name_prefix (files : list File) : M string :=
  let saved_tokens := saved_tokens_of files in
  let prefix_token_last_index := prefix_token_last_index_from 0 saved_tokens in
  if (0 <=? prefix_token_last_index)%Z
  then mret (build_prefix prefix_token_last_index 0 "" saved_tokens)
  else
    _ ← log (LogWarning "Failed to found file prefix from file name");
    mret "".

(** *** Episode index of one file *)

(** The loop over the matches of [S[0-9]+E[0-9]+].  A match always splits
    on [E] into two parts, so the [IndexError] the [try] guards against
    does not arise; it is modelled as the [None] the handler returns. *)
Fixpoint normalized_form_loop (matches : list string) : option N :=
  match matches with
  | [] => None
  | str_episode :: r =>
      match PyStr.split "E" str_episode !! 1%nat with
      | Some splited =>
          if PyStr.isnumeric splited then Some (PyStr.int splited)
          else normalized_form_loop r
      | None => None
      end
  end.

Definition _extract_episode_index_from_normalized_form (str : string) : option N :=
  normalized_form_loop (PyStr.finditer_SE str).

(** [_extract_episode_index_from_file_name] is embedded in three pieces:
    the assignments up to [prefix_removed], the body of
    [if len(splited) > 0], and the function itself. *)
Definition prefix_removed (file_name prefix : string) : string :=
  let underscore_replaced := replace_special_chars file_name in
  let suffix_removed := trunc_suffix_from_file_name underscore_replaced in
  PyStr.replace prefix "" suffix_removed.

(** The body of [if len(splited) > 0].  For an ASCII token [int] is only
    applied to a run of the digits 0..9 and cannot raise [ValueError]. *)
Definition index_of_token (str_index : string) : Result N :=
  if PyStr.isnumeric str_index then inr (PyStr.int str_index)
  else
    match truthy (_extract_episode_index_from_normalized_form str_index) with
    | Some index => inr index
    | None =>
        match truthy (_extract_number_from_string str_index) with
        | Some index => inr index
        | None => inl EpisodeIndexNotFoundException
        end
    end.

Definition _extract_episode_index_from_file_name (file_name prefix : string)
  : Result N :=
  let splited := PyStr.split " " (prefix_removed file_name prefix) in
  match splited with
  | str_index :: _ => index_of_token str_index
  | [] => inl EpisodeIndexNotFoundException
  end.

(** *** The episode map of one season *)

Record EpisodeState := mkEpisodeState {
  episodes : gmap N File;
  episode_index_not_found_files : list File
}.

(** One iteration of the loop of [_get_episodes]. *)
Definition episode_step (file_name_prefix : string) (st : EpisodeState)
           (media_file : File) : M EpisodeState :=
  let file_title := file_title media_file in
  match _extract_episode_index_from_file_name file_title file_name_prefix with
  | inl EpisodeIndexNotFoundException =>
      _ ← log (LogInfo ("Episode index not found from " +:+ file_title));
      mret (mkEpisodeState (episodes st)
              (episode_index_not_found_files st ++ [media_file]))
  | inl e => raise e
  | inr episode_index =>
      if truthy_file (episodes st !! episode_index)
      then
        _ ← log (LogInfo ("Duplicated episode index found from " +:+ file_title));
        mret (mkEpisodeState (episodes st)
                (episode_index_not_found_files st ++ [media_file]))
      else if truthy_file (episodes st !! episode_index)
      then raise (EpisodeIndexDuplicatedException "Duplicated episode index found")
      else mret (mkEpisodeState (<[episode_index := media_file]> (episodes st))
                   (episode_index_not_found_files st))
  end.

Fixpoint episode_loop (file_name_prefix : string) (st : EpisodeState)
         (media_files : list File) : M EpisodeState :=
  match media_files with
  | [] => mret st
  | media_file :: r =>
      st' ← episode_step file_name_prefix st media_file;
      episode_loop file_name_prefix st' r
  end.

(** [_get_episodes] with its local side list kept: the [sorted] call of
    the source discards its result, so files are visited in list order. *)
Definition get_episodes_state (media_files : list File) : M EpisodeState :=
  file_name_prefix ← _get_file_name_prefix media_files;
  episode_loop file_name_prefix (mkEpisodeState ∅ []) media_files.

Definition _get_episodes (media_files : list File) : M (gmap N File) :=
  st ← get_episodes_state media_files;
  mret (episodes st).

(** *** Seasons *)

Definition season_index_not_found_message : string :=
  "Failed to detect season index from season folder name, but multiple season folder exists. Try to rename season foler name.".

(** One iteration of the loop over the season folders. *)
Definition season_step (builder : MetadataBuilder) (media_root : Folder)
           (seasons : gmap N SeasonMetadata) (season_root : Folder)
  : M (gmap N SeasonMetadata) :=
  let season_title := get_title season_root in
  season_index ←
    match extract_season_index SEASON_ALIASES season_title with
    | None =>
        if Nat.ltb 1 (length (get_folders media_root))
        then raise (SeasonIndexNotFoundException season_index_not_found_message)
        else mret 1%N
    | Some season_index => mret season_index
    end;
  let season_media_root := _find_media_root season_root in
  subtitles ← GeneralMediaAnalyzer._analyze_subtitles season_media_root;
  let media_files := GeneralMediaAnalyzer._get_media_files season_media_root in
  episode_files ← _get_episodes media_files;
  mret (<[season_index :=
            mkSeasonMetadata (builder_title builder) (get_title season_root)
              media_root season_root media_files subtitles season_index
              episode_files]> seasons).

Fixpoint season_loop (builder : MetadataBuilder) (media_root : Folder)
         (seasons : gmap N SeasonMetadata) (season_folders : list Folder)
  : M (gmap N SeasonMetadata) :=
  match season_folders with
  | [] => mret seasons
  | season_root :: r =>
      seasons' ← season_step builder media_root seasons season_root;
      season_loop builder media_root seasons' r
  end.

Definition _analyze_season (builder : MetadataBuilder) (media_root root : Folder)
  : M (gmap N SeasonMetadata) :=
  let season_folders := _find_season_folders root in
  match season_folders with
  | [] =>
      subtitles ← GeneralMediaAnalyzer._analyze_subtitles root;
      let media_files := GeneralMediaAnalyzer._get_media_files media_root in
      let season_index := extract_season_index SEASON_ALIASES (get_title media_root) in
      let season_index := default 1%N (truthy season_index) in
      episode_files ← _get_episodes media_files;
      mret (<[season_index :=
                mkSeasonMetadata (builder_title builder) (get_title media_root)
                  root media_root media_files subtitles season_index
                  episode_files]> ∅)
  | _ :: _ => season_loop builder media_root ∅ season_folders
  end.

Definition _analyze (root : Folder) : M (MetadataBuilder * gmap N SeasonMetadata) :=
  builder ← GeneralMediaAnalyzer._analyze (λ r, inr (_find_media_root r)) root;
  seasons ← _analyze_season builder (builder_media_root builder) root;
  mret (builder, seasons).

Definition analyze (root : Folder) : M Metadata :=
  '(builder, seasons) ← _analyze root;
  mret (mkMetadata (builder_title builder) (builder_original_title builder)
          (builder_root builder) (builder_media_root builder) TV seasons).

End WithCollaborators.
End TVAnalyzer.

(** ** GeneralSubtitleExtractor *)

Module GeneralSubtitleExtractor.

(** [for child in root.get_folders(): return ...] only ever looks at the
    first subfolder. *)
Fixpoint _find_subtitle_containing_folder (root : Folder) : Result Folder :=
  if contains_subtitle_file root then inr root
  else
    match root with
    | mkFolder _ absolute_path ss =>
        (fix first_child (ss : list Structable) : Result Folder :=
           match ss with
           | [] =>
               inl (NoSubtitleFileException
                      ("Subtitle archive extracted, but no subtitle found. (extracted_path="
                         +:+ absolute_path +:+ ")"))
           | AFile _ :: r => first_child r
           | AFolder child :: _ => _find_subtitle_containing_folder child
           end) ss
    end.

End GeneralSubtitleExtractor.

(** * Vocabulary of the statements *)

Module Vocabulary.
Import TVAnalyzer.

(** The identity of a token in the frequency table. *)
Definition token_key (t : Token) : nat * string := (tok_idx t, get_str t).

Definition token_of (k : nat * string) : Token := new_Token k.1 k.2.

(** One update of the table, by key. *)
Definition upd (s : list Token) (k : nat * string) : list Token :=
  _update_saved_tokens s (token_of k).

Fixpoint indexed_from (idx : nat) (toks : list string) : list (nat * string) :=
  match toks with
  | [] => []
  | w :: r => (idx, w) :: indexed_from (S idx) r
  end.

(** Every (position, word) pair of every file, in the order in which
    [_get_file_name_prefix] feeds them to the table. *)
Definition stream (files : list File) : list (nat * string) :=
  concat ((λ f, indexed_from 0 (file_tokens f)) <$> files).

Definition occurrences (k : nat * string) (l : list (nat * string)) : nat :=
  length (filter (λ x, x = k) l).

(** The number of files of [files] whose token at position [i] is [w]. *)
Definition token_occurrences (files : list File) (i : nat) (w : string) : nat :=
  length (filter (λ f, file_tokens f !! i = Some w) files).

Definition bump (k : nat * string) (t : Token) : Token :=
  if decide (token_key t = k) then count_up t else t.

(** The table after the stream [l]: one entry per distinct key, holding
    the number of times the key occurred. *)
Definition table_of (s : list Token) (l : list (nat * string)) : Prop :=
  NoDup (token_key <$> s)
  ∧ (∀ k, k ∈ l ↔ k ∈ token_key <$> s)
  ∧ (∀ t, t ∈ s → get_count t = occurrences (token_key t) l).


(** Words joined with single spaces and followed by one trailing space; the
    empty string when there is no word. *)
Definition joined_prefix (words : list string) : string :=
  match words with
  | [] => ""
  | _ :: _ => String.concat " " words +:+ " "
  end.

(** The value an [M] computation returns, [d] when it raises. *)
Definition value {A} (d : A) (m : M A) : A :=
  match outcome m with
  | inr a => a
  | inl _ => d
  end.

(** The prefix [_get_episodes] works with. *)
Definition discovered_prefix (files : list File) : string :=
  value "" (_get_file_name_prefix files).

Fixpoint string_drop (n : nat) (s : string) : string :=
  match n, s with
  | O, _ => s
  | S n', String _ r => string_drop n' r
  | S _, EmptyString => EmptyString
  end.

(** Follows the words of the specification ("remove the first literal
    occurrence of the detected prefix substring"): only the leftmost
    occurrence of [old] is deleted, whatever follows is copied. *)
Fixpoint remove_first_occurrence (old s : string) : string :=
  if String.prefix old s then string_drop (String.length old) s
  else match s with
       | EmptyString => EmptyString
       | String c r => String c (remove_first_occurrence old r)
       end.

(** Every file in the subtree of a folder. *)
Fixpoint subtree_files (d : Folder) : list File :=
  match d with
  | mkFolder _ _ ss =>
      (fix go (ss : list Structable) : list File :=
         match ss with
         | [] => []
         | AFile f :: r => f :: go r
         | AFolder c :: r => subtree_files c ++ go r
         end) ss
  end.

Definition no_subtitle_message (d : Folder) : string :=
  "Subtitle archive extracted, but no subtitle found. (extracted_path="
    +:+ get_absolute_path d +:+ ")".

(** A subtitle or archived-subtitle file lies somewhere in the subtree. *)
Definition subtitle_in_subtree (d : Folder) : Prop :=
  ∃ f, f ∈ subtree_files d ∧ is_subtitle_type (get_file_type f) = true.

(** The descent of the archive search: from a folder without subtitle file
    in its subtree to its first subfolder, and so on. *)
Inductive leftmost_descent : Folder → Folder → Prop :=
| descent_here d : leftmost_descent d d
| descent_step d c rest leaf :
    ¬ subtitle_in_subtree d →
    get_folders d = c :: rest →
    leftmost_descent c leaf →
    leftmost_descent d leaf.

Section SeasonVocabulary.
Variable SEASON_ALIASES : list string.
Variable trunc_suffix_from_file_name : string → string.

(** What [_get_episodes] and [_analyze_subtitles] return. *)
Definition episodes_of (media_files : list File) : gmap N File :=
  value ∅ (_get_episodes trunc_suffix_from_file_name media_files).

Definition subtitles_of (root : Folder) : list File :=
  value [] (GeneralMediaAnalyzer._analyze_subtitles root).

(** The title of a season folder contains a season keyword. *)
Definition season_like (folder : Folder) : bool :=
  contains_season_keyword SEASON_ALIASES (get_title folder).

(** The title of a season folder yields no index. *)
Definition unnumbered (folder : Folder) : Prop :=
  extract_season_index SEASON_ALIASES (get_title folder) = None.

(** The index a season folder is recorded under when no exception is
    raised for it. *)
Definition season_key (season_root : Folder) : N :=
  default 1%N (extract_season_index SEASON_ALIASES (get_title season_root)).

(** The record of one season folder. *)
Definition season_entry (builder : MetadataBuilder) (media_root season_root : Folder)
  : SeasonMetadata :=
  let season_media_root := _find_media_root SEASON_ALIASES season_root in
  let media_files := GeneralMediaAnalyzer._get_media_files season_media_root in
  mkSeasonMetadata (builder_title builder) (get_title season_root)
    media_root season_root media_files (subtitles_of season_media_root)
    (season_key season_root) (episodes_of media_files).

Definition record_season (builder : MetadataBuilder) (media_root : Folder)
           (seasons : gmap N SeasonMetadata) (season_root : Folder)
  : gmap N SeasonMetadata :=
  <[season_key season_root := season_entry builder media_root season_root]> seasons.

(** The record of the flat, single-season layout. *)
Definition flat_key (media_root : Folder) : N :=
  default 1%N (truthy (extract_season_index SEASON_ALIASES (get_title media_root))).

Definition flat_entry (builder : MetadataBuilder) (media_root root : Folder)
  : SeasonMetadata :=
  let media_files := GeneralMediaAnalyzer._get_media_files media_root in
  mkSeasonMetadata (builder_title builder) (get_title media_root)
    root media_root media_files (subtitles_of root)
    (flat_key media_root) (episodes_of media_files).

(** The builder as [_analyze] of the base class leaves it. *)
Definition builder_of (root : Folder) : MetadataBuilder :=
  let media_root := _find_media_root SEASON_ALIASES root in
  mkBuilder root (get_title root) media_root (get_title media_root).

Definition metadata_of (root : Folder) (seasons : gmap N SeasonMetadata) : Metadata :=
  let builder := builder_of root in
  mkMetadata (builder_title builder) (builder_original_title builder)
    (builder_root builder) (builder_media_root builder) TV seasons.

(** The first token of a file title once the prefix is removed. *)
Definition first_token (file_name prefix : string) : string :=
  default "" (head (PyStr.split " "
                      (prefix_removed trunc_suffix_from_file_name file_name prefix))).

End SeasonVocabulary.

End Vocabulary.

(** * Sample inputs *)

Module Samples.

Definition media (t : string) : File := mkFile t t MEDIA.

(** The titles that go through suffix stripping in the samples carry no
    suffix, and the suffix-stripping collaborator leaves them as they are. *)
Definition no_suffix (file_name : string) : string := file_name.

(** Spec 4.1 names the keywords "season" and "s0". *)
Definition aliases : list string := ["season"; "s0"].

Definition other (t : string) : File := mkFile t t OTHER.

Definition subtitle (t : string) : File := mkFile t t SUBTITLE.

(** A season folder with two episodes, a text file and a subfolder, none of
    them a subtitle. *)
Definition season_without_subtitles : Folder :=
  mkFolder "Season 1" "/Show/Season 1"
    [AFile (media "Show 01"); AFile (media "Show 02"); AFile (other "readme");
     AFolder (mkFolder "Extras" "/Show/Season 1/Extras" [AFile (other "cover")])].

(** An extracted archive: the subtitle lies two levels below the root,
    whose direct contents are a text file and two folders. *)
Definition archive_deep : Folder :=
  mkFolder "tmp" "/tmp/x"
    [AFile (other "readme");
     AFolder (mkFolder "a" "/tmp/x/a" []);
     AFolder (mkFolder "b" "/tmp/x/b"
                [AFolder (mkFolder "c" "/tmp/x/b/c"
                            [AFile (other "cover");
                             AFile (subtitle "Show 01 srt")])])].

(** A lone season folder without number. *)
Definition lone_season_folder : Folder :=
  mkFolder "Season" "/Show/Season" [AFile (media "Show 01"); AFile (media "Show 02")].

Definition lone_season : Folder :=
  mkFolder "Show" "/Show" [AFolder lone_season_folder].




(** A season folder with an episode of its own and a subfolder with media. *)
Definition extras : Folder :=
  mkFolder "Extras" "/Show/Season 1/Extras" [AFile (media "Show 09")].

Definition season_with_extras : Folder :=
  mkFolder "Season 1" "/Show/Season 1" [AFile (media "Show 01"); AFolder extras].

Definition show_with_extras : Folder :=
  mkFolder "Show" "/Show" [AFolder season_with_extras].

(** Season 0 with an episode 0. *)
Definition season_zero : Folder :=
  mkFolder "Season 0" "/Show/Season 0"
    [AFile (media "Show 00"); AFile (media "Show 01")].

Definition show_zero : Folder :=
  mkFolder "Show" "/Show" [AFolder season_zero].

(** Two season folders whose titles both read 1. *)
Definition season_one : Folder :=
  mkFolder "Season 1" "/Show/Season 1" [AFile (media "Show 01")].

Definition season_one_again : Folder :=
  mkFolder "Season 01" "/Show/Season 01" [AFile (media "Show 02")].

Definition show_twice_one : Folder :=
  mkFolder "Show" "/Show" [AFolder season_one; AFolder season_one_again].

(** A movie folder whose media file lies in its second subfolder. *)
Definition movie_disc : Folder :=
  mkFolder "disc" "/Movie/disc" [AFile (media "Movie 2020")].

Definition movie : Folder :=
  mkFolder "Movie" "/Movie"
    [AFile (subtitle "Movie srt");
     AFolder (mkFolder "sample" "/Movie/sample" [AFile (other "nfo")]);
     AFolder movie_disc].

(** An unnumbered season folder beside a folder that holds media. *)
Definition bonus : Folder :=
  mkFolder "Extras" "/Show/Extras" [AFile (media "Show 09")].

Definition season_beside_bonus : Folder :=
  mkFolder "Show" "/Show" [AFolder lone_season_folder; AFolder bonus].




End Samples.

(** * Further vocabulary *)

Module Terms.
Import TVAnalyzer Vocabulary.

(** The characters of a string. *)
Fixpoint chars (s : string) : list ascii :=
  match s with
  | EmptyString => []
  | String c r => c :: chars r
  end.

(** What normalization does to one character. *)
Definition normalize_char (c : ascii) : ascii :=
  if Ascii.eqb c "_" then " "%char
  else if Ascii.eqb c "." then " "%char
  else c.

(** No character of the string is a decimal digit. *)
Fixpoint digit_free (s : string) : bool :=
  match s with
  | EmptyString => true
  | String c r => negb (PyStr.is_digit c) && digit_free r
  end.

(** The string is empty or begins with a character that is no digit. *)
Definition no_leading_digit (s : string) : bool :=
  match s with
  | EmptyString => true
  | String c _ => negb (PyStr.is_digit c)
  end.

(** The media files among the direct files of a folder. *)
Definition direct_media (folder : Folder) : list File :=
  List.filter GeneralMediaAnalyzer.is_media (get_files folder).

(** The subtitle and archived-subtitle files among the direct files of a
    folder. *)
Definition direct_subtitles (folder : Folder) : list File :=
  List.filter GeneralMediaAnalyzer.is_subtitle (get_files folder).

(** The sum of the counts of a frequency table. *)
Definition total_count (saved_tokens : list Token) : nat :=
  sum_list (get_count <$> saved_tokens).

(** The number of tokens of all files. *)
Definition total_tokens (files : list File) : nat :=
  sum_list ((λ f, length (file_tokens f)) <$> files).

(** The diagnostics of level info. *)
Definition infos (l : list Diag) : list Diag :=
  List.filter (λ d, match d with LogInfo _ => true | LogWarning _ => false end) l.

(** Every character of the string is an ASCII character.  On such strings
    the embedding of [str.isnumeric], [int] and [str.lower] is exact; beyond
    them Python also counts other Unicode numerals as numeric, and [int]
    reads some of them and raises [ValueError] on others. *)
Fixpoint isascii (s : string) : bool :=
  match s with
  | EmptyString => true
  | String c r => (N_of_ascii c <? 128)%N && isascii r
  end.

(** The titles of the files are ASCII strings. *)
Definition ascii_titles (files : list File) : bool :=
  forallb (λ f, isascii (file_title f)) files.

(** The suffix-stripping collaborator returns an ASCII string for an ASCII
    string. *)
Definition ascii_preserving (strip : string → string) : Prop :=
  ∀ s, isascii s = true → isascii (strip s) = true.




(** The number of folders in the subtree of a folder, itself included. *)
Fixpoint folder_size (d : Folder) : nat :=
  match d with
  | mkFolder _ _ ss =>
      S ((fix go (ss : list Structable) : nat :=
            match ss with
            | [] => 0
            | AFile _ :: r => go r
            | AFolder c :: r => folder_size c + go r
            end) ss)
  end.

End Terms.

(** * Properties *)

Lemma string_app_cons (x : ascii) (a b : string) :
  String x a +:+ b = String x (a +:+ b).
Proof. reflexivity. Qed.

Lemma string_app_nil_l (a : string) : "" +:+ a = a.
Proof. reflexivity. Qed.

Lemma string_app_assoc (a b c : string) : (a +:+ b) +:+ c = a +:+ (b +:+ c).
Proof.
  induction a as [|x a IH]; [done|].
  by rewrite !string_app_cons, IH.
Qed.

Lemma string_app_nil_r (a : string) : a +:+ "" = a.
Proof.
  induction a as [|x a IH]; [done|].
  by rewrite string_app_cons, IH.
Qed.

Section PrefixDiscovery.
Import TVAnalyzer Vocabulary.

Lemma Token_eqb_key a b : Token_eqb a b = true ↔ token_key a = token_key b.
Proof.
  unfold Token_eqb, token_key. rewrite andb_true_iff, Nat.eqb_eq, String.eqb_eq.
  split; [intros [-> ->]; done | intros [= -> ->]; done].
Qed.

Lemma key_token_of k : token_key (token_of k) = k.
Proof. by destruct k. Qed.

Lemma key_count_up t : token_key (count_up t) = token_key t.
Proof. done. Qed.

Lemma add_tokens_foldl s idx toks :
  add_tokens s idx toks = foldl upd s (indexed_from idx toks).
Proof.
  revert s idx. induction toks as [|w r IH]; intros s idx; csimpl; [done|].
  by rewrite IH.
Qed.

Lemma foldl_files_stream s files :
  foldl (λ saved f, add_tokens saved 0 (file_tokens f)) s files
  = foldl upd s (stream files).
Proof.
  revert s. induction files as [|f r IH]; intros s; [done|].
  unfold stream. csimpl. rewrite foldl_app, <- add_tokens_foldl. apply IH.
Qed.

Lemma saved_tokens_of_stream files :
  saved_tokens_of files = foldl upd [] (stream files).
Proof. apply foldl_files_stream. Qed.

(** An update either counts up an entry or appends one: the keys already
    in the table stay where they are. *)
Lemma upd_keys_prefix s k : ∃ extra, token_key <$> upd s k = (token_key <$> s) ++ extra.
Proof.
  unfold upd. induction s as [|t r [extra IH]]; csimpl.
  - by exists [token_key (token_of k)].
  - destruct (Token_eqb t (token_of k)); csimpl.
    + exists []. by rewrite app_nil_r.
    + exists extra. by rewrite IH.
Qed.

Lemma foldl_upd_keys_prefix l s :
  ∃ extra, token_key <$> foldl upd s l = (token_key <$> s) ++ extra.
Proof.
  revert s. induction l as [|k l IH]; intros s; csimpl.
  - exists []. by rewrite app_nil_r.
  - destruct (IH (upd s k)) as [e1 H1], (upd_keys_prefix s k) as [e2 H2].
    exists (e2 ++ e1). by rewrite H1, H2, <- app_assoc.
Qed.

Lemma upd_fresh s k : k ∉ token_key <$> s → upd s k = s ++ [token_of k].
Proof.
  unfold upd. induction s as [|t r IH]; csimpl; intros Hk; [done|].
  apply not_elem_of_cons in Hk as [Hne Hk].
  destruct (Token_eqb t (token_of k)) eqn:E.
  - apply Token_eqb_key in E. rewrite key_token_of in E. congruence.
  - by rewrite IH.
Qed.

Lemma bump_fresh (s : list Token) k : k ∉ token_key <$> s → bump k <$> s = s.
Proof.
  induction s as [|t r IH]; csimpl; intros Hk; [done|].
  apply not_elem_of_cons in Hk as [Hne Hk].
  unfold bump at 1. rewrite decide_False by congruence. by rewrite IH.
Qed.

Lemma upd_seen (s : list Token) k :
  NoDup (token_key <$> s) → k ∈ token_key <$> s → upd s k = bump k <$> s.
Proof.
  unfold upd. induction s as [|t r IH]; csimpl; intros Hnd Hk.
  - by apply elem_of_nil in Hk.
  - apply NoDup_cons in Hnd as [Hnotin Hnd].
    destruct (Token_eqb t (token_of k)) eqn:E.
    + apply Token_eqb_key in E. rewrite key_token_of in E.
      unfold bump at 1. rewrite decide_True by done.
      rewrite bump_fresh; [done | congruence].
    + assert (token_key t ≠ k) as Hne.
      { intros <-. assert (Token_eqb t (token_of (token_key t)) = true) as E'.
        { apply Token_eqb_key. by rewrite key_token_of. }
        congruence. }
      unfold bump at 1. rewrite decide_False by done.
      apply elem_of_cons in Hk as [->|Hk]; [done|]. by rewrite IH.
Qed.

Lemma key_bump k t : token_key (bump k t) = token_key t.
Proof. unfold bump. by destruct (decide _). Qed.

Lemma occurrences_app k l1 l2 :
  occurrences k (l1 ++ l2) = occurrences k l1 + occurrences k l2.
Proof. unfold occurrences. by rewrite filter_app, length_app. Qed.

Lemma occurrences_singleton k k' :
  occurrences k [k'] = if decide (k' = k) then 1 else 0.
Proof.
  unfold occurrences. rewrite filter_cons, filter_nil.
  by destruct (decide (k' = k)).
Qed.

Lemma occurrences_zero k l : k ∉ l → occurrences k l = 0.
Proof.
  unfold occurrences. induction l as [|x l IH]; intros Hk; [done|].
  apply not_elem_of_cons in Hk as [Hne Hk]. rewrite filter_cons.
  rewrite decide_False by congruence. auto.
Qed.

Lemma fmap_key_bump k (s : list Token) : token_key <$> (bump k <$> s) = token_key <$> s.
Proof.
  induction s as [|t r IH]; csimpl; [done|]. by rewrite key_bump, IH.
Qed.

Lemma table_of_upd s l k : table_of s l → table_of (upd s k) (l ++ [k]).
Proof.
  intros (Hnd & Hmem & Hcnt).
  destruct (decide (k ∈ token_key <$> s)) as [Hin|Hout].
  - rewrite upd_seen by done. split; [|split].
    + by rewrite fmap_key_bump.
    + intros k'. rewrite fmap_key_bump, elem_of_app, list_elem_of_singleton, Hmem.
      split; [intros [?| ->]; done | auto].
    + intros t' Ht'. apply list_elem_of_fmap in Ht' as (t & -> & Ht).
      rewrite key_bump, occurrences_app, occurrences_singleton.
      unfold bump. destruct (decide (token_key t = k)) as [<-|Hne].
      * rewrite decide_True by done. csimpl. rewrite (Hcnt t Ht). lia.
      * rewrite decide_False by congruence. rewrite (Hcnt t Ht). lia.
  - rewrite upd_fresh by done. split; [|split].
    + rewrite fmap_app. csimpl. rewrite key_token_of.
      apply NoDup_app. split; [done | split; [| apply NoDup_singleton]].
      intros x Hx ->%list_elem_of_singleton. done.
    + intros k'. rewrite fmap_app. csimpl. rewrite key_token_of.
      rewrite !elem_of_app, Hmem. done.
    + intros t Ht. rewrite occurrences_app, occurrences_singleton.
      apply elem_of_app in Ht as [Ht| ->%list_elem_of_singleton].
      * rewrite decide_False.
        -- rewrite (Hcnt t Ht). lia.
        -- intros ->. apply Hout. apply list_elem_of_fmap. eauto.
      * rewrite key_token_of, decide_True by done.
        rewrite occurrences_zero; [done|]. by rewrite Hmem.
Qed.

Lemma table_of_foldl l : table_of (foldl upd [] l) l.
Proof.
  induction l as [|k l IH] using rev_ind.
  - repeat split; csimpl; try done; [apply NoDup_nil_2 | by intros ? ?%elem_of_nil].
  - rewrite foldl_app. csimpl. by apply table_of_upd.
Qed.

Lemma foldl_upd_fresh l s :
  NoDup ((token_key <$> s) ++ l) → foldl upd s l = s ++ (token_of <$> l).
Proof.
  revert s. induction l as [|k l IH]; intros s Hnd; csimpl.
  - by rewrite app_nil_r.
  - assert (k ∉ token_key <$> s) as Hk.
    { apply NoDup_app in Hnd as (_ & Hdisj & _). intros Hin.
      apply (Hdisj k Hin). left. }
    rewrite upd_fresh by done. rewrite IH.
    + by rewrite <- app_assoc.
    + rewrite fmap_app. csimpl. rewrite key_token_of, <- app_assoc. done.
Qed.

Lemma elem_of_indexed_from i w j toks :
  (i, w) ∈ indexed_from j toks ↔ j ≤ i ∧ toks !! (i - j) = Some w.
Proof.
  revert j. induction toks as [|w0 r IH]; intros j; csimpl.
  - rewrite elem_of_nil. by split; [|intros [_ ?]].
  - rewrite elem_of_cons, IH. split.
    + intros [[= -> ->]|[Hle Hl]].
      * rewrite Nat.sub_diag. done.
      * split; [lia|]. replace (i - j) with (S (i - S j)) by lia. done.
    + intros [Hle Hl]. destruct (decide (i = j)) as [->|Hne].
      * rewrite Nat.sub_diag in Hl. left. by injection Hl as ->.
      * right. split; [lia|].
        replace (i - j) with (S (i - S j)) in Hl by lia. done.
Qed.

Lemma NoDup_indexed_from j toks : NoDup (indexed_from j toks).
Proof.
  revert j. induction toks as [|w0 r IH]; intros j; csimpl.
  - apply NoDup_nil_2.
  - apply NoDup_cons. split; [|apply IH].
    rewrite elem_of_indexed_from. lia.
Qed.

Lemma lookup_indexed_from j toks i :
  indexed_from j toks !! i = (λ w, (j + i, w)) <$> toks !! i.
Proof.
  revert j i. induction toks as [|w0 r IH]; intros j [|i]; csimpl; try done.
  - by rewrite Nat.add_0_r.
  - rewrite IH. by replace (S j + i) with (j + S i) by lia.
Qed.

Lemma occurrences_NoDup k l :
  NoDup l → occurrences k l = if decide (k ∈ l) then 1 else 0.
Proof.
  unfold occurrences. induction 1 as [|x l Hx Hnd IH].
  - rewrite decide_False; [done | apply not_elem_of_nil].
  - rewrite filter_cons. destruct (decide (x = k)) as [->|Hne].
    + rewrite decide_True by left. csimpl. f_equal.
      apply (occurrences_zero k l Hx).
    + rewrite IH. destruct (decide (k ∈ l)) as [Hin|Hout].
      * rewrite decide_True; [done | by right].
      * rewrite decide_False; [done|].
        intros [->|?]%elem_of_cons; done.
Qed.

(** The count the table keeps for a token_key is the number of files that have
    that word at that position. *)
Lemma occurrences_stream files i w :
  occurrences (i, w) (stream files) = token_occurrences files i w.
Proof.
  unfold stream, token_occurrences.
  induction files as [|f r IH]; [done|]. csimpl.
  rewrite occurrences_app, IH, filter_cons.
  rewrite occurrences_NoDup by apply NoDup_indexed_from.
  destruct (decide (file_tokens f !! i = Some w)) as [Hl|Hl].
  - rewrite decide_True; [done|].
    apply elem_of_indexed_from. rewrite Nat.sub_0_r. split; [lia | done].
  - rewrite decide_False; [done|].
    rewrite elem_of_indexed_from, Nat.sub_0_r. by intros [_ ?].
Qed.




End PrefixDiscovery.


(** ** Normalization, character by character *)

Section NormalizationFacts.
Import Vocabulary Terms.

Lemma string_prefix_single c x s :
  String.prefix (String c "") (String x s) = Ascii.eqb x c.
Proof.
  simpl. destruct (ascii_dec c x) as [->|Hne].
  - rewrite Ascii.eqb_refl. by destruct s.
  - symmetry. apply Ascii.eqb_neq. congruence.
Qed.

(** Replacing one character by another is a map over the characters. *)
Lemma chars_replace_single c d s :
  chars (PyStr.replace (String c "") (String d "") s)
  = (λ x, if Ascii.eqb x c then d else x) <$> chars s.
Proof.
  change (PyStr.replace (String c "") (String d "") s)
    with (PyStr.replace_from (String c "") (String d "") 0 s).
  induction s as [|x s IH]; [done|].
  cbn [PyStr.replace_from]. rewrite string_prefix_single.
  destruct (Ascii.eqb x c) eqn:E.
  - change (String.length (String c "") - 1) with 0.
    rewrite string_app_cons, string_app_nil_l. csimpl. by rewrite E, IH.
  - csimpl. by rewrite E, IH.
Qed.

Lemma length_chars s : length (chars s) = String.length s.
Proof. induction s as [|c s IH]; simpl; [done | by rewrite IH]. Qed.

Lemma chars_inj s1 s2 : chars s1 = chars s2 → s1 = s2.
Proof.
  revert s2. induction s1 as [|c s1 IH]; intros [|d s2]; simpl; try done.
  intros [= -> H]. by rewrite (IH _ H).
Qed.

Lemma normalize_char_idemp c : normalize_char (normalize_char c) = normalize_char c.
Proof.
  unfold normalize_char.
  destruct (Ascii.eqb c "_") eqn:E1; [done|].
  destruct (Ascii.eqb c ".") eqn:E2; [done|]. by rewrite E1, E2.
Qed.

Lemma normalize_char_clean c :
  normalize_char c ≠ "_"%char ∧ normalize_char c ≠ "."%char.
Proof.
  unfold normalize_char.
  destruct (Ascii.eqb c "_") eqn:E1; [done|].
  destruct (Ascii.eqb c ".") eqn:E2; [done|].
  by apply Ascii.eqb_neq in E1, E2.
Qed.

Lemma chars_replace_special_chars s :
  chars (replace_special_chars s) = normalize_char <$> chars s.
Proof.
  unfold replace_special_chars.
  rewrite !chars_replace_single, <- list_fmap_compose.
  apply list_fmap_ext. intros _ c _. simpl. unfold normalize_char.
  destruct (Ascii.eqb c "_") eqn:E1; [done|]. done.
Qed.

Lemma replace_special_chars_clean s c :
  c ∈ chars (replace_special_chars s) → c ≠ "_"%char ∧ c ≠ "."%char.
Proof.
  rewrite chars_replace_special_chars. intros (x & -> & _)%list_elem_of_fmap.
  apply normalize_char_clean.
Qed.



End NormalizationFacts.
Section PrefixTheorem.
Import TVAnalyzer Vocabulary Terms.



Lemma fmap_key_token_of (l : list (nat * string)) :
  token_key <$> (token_of <$> l) = l.
Proof. induction l as [|k l IH]; csimpl; [done | by rewrite key_token_of, IH]. Qed.


Lemma stream_cons f files :
  stream (f :: files) = indexed_from 0 (file_tokens f) ++ stream files.
Proof. reflexivity. Qed.


Lemma elem_of_stream files i w :
  (i, w) ∈ stream files ↔ ∃ f, f ∈ files ∧ file_tokens f !! i = Some w.
Proof.
  induction files as [|f r IH].
  - split; [by intros ?%elem_of_nil | by intros (f & ?%elem_of_nil & _)].
  - rewrite stream_cons, elem_of_app, IH, elem_of_indexed_from, Nat.sub_0_r.
    split.
    + intros [[_ H]|(g & Hg & H)]; [exists f | exists g].
      * split; [left | done].
      * split; [by right | done].
    + intros (g & [->|Hg]%elem_of_cons & H); [left; split; [lia | done]|].
      right. eauto.
Qed.

Lemma prefix_token_last_index_from_none idx saved :
  Forall (λ t, 1 < get_count t) saved →
  prefix_token_last_index_from idx saved = (-1)%Z.
Proof.
  intros H. revert idx. induction H as [|t r Ht _ IH]; intros idx; simpl; [done|].
  by rewrite (proj2 (Nat.leb_gt _ _) Ht).
Qed.







End PrefixTheorem.



(** ** The two regular expressions *)

Section Regex.
Import TVAnalyzer.

Lemma span_digits_all_digits s : PyStr.all_digits (PyStr.span_digits s).1 = true.
Proof.
  induction s as [|c s IH]; simpl; [done|].
  destruct (PyStr.is_digit c) eqn:E; [|done].
  destruct (PyStr.span_digits s) as [d rest]. simpl in *. by rewrite E, IH.
Qed.

Lemma is_digit_not_E c : PyStr.is_digit c = true → Ascii.eqb c "E" = false.
Proof.
  intros Hd. destruct (Ascii.eqb c "E") eqn:E; [|done].
  apply Ascii.eqb_eq in E. by subst c.
Qed.

Lemma split_E_digits d : PyStr.all_digits d = true → PyStr.split "E" d = [d].
Proof.
  induction d as [|c d IH]; simpl; [done|].
  intros [Hc Hd]%andb_true_iff. by rewrite (is_digit_not_E c Hc), (IH Hd).
Qed.

Lemma split_E_digits_app d r :
  PyStr.all_digits d = true →
  PyStr.split "E" (d +:+ String "E" r) = d :: PyStr.split "E" r.
Proof.
  induction d as [|c d IH]; [done|].
  intros [Hc Hd]%andb_true_iff. rewrite string_app_cons. simpl.
  by rewrite (is_digit_not_E c Hc), (IH Hd).
Qed.

(** A match of [S[0-9]+E[0-9]+] splits on [E] into two parts, and the second
    part is numeric. *)
Lemma match_SE_split s m :
  PyStr.match_SE s = Some m →
  ∃ d1 d2, PyStr.split "E" m = [String "S" d1; d2] ∧ PyStr.isnumeric d2 = true.
Proof.
  unfold PyStr.match_SE. destruct s as [|c r]; [done|].
  destruct (Ascii.eqb c "S"); [|done].
  pose proof (span_digits_all_digits r) as H1.
  destruct (PyStr.span_digits r) as [d1 r1]. simpl in H1.
  destruct (String.eqb d1 ""); [done|]. destruct r1 as [|e r2]; [done|].
  destruct (Ascii.eqb e "E"); [|done].
  pose proof (span_digits_all_digits r2) as H2.
  destruct (PyStr.span_digits r2) as [d2 r3]. simpl in H2.
  destruct (String.eqb d2 "") eqn:E2; [done|]. intros [= <-].
  exists d1, d2. split.
  - change ("S" +:+ d1 +:+ "E" +:+ d2) with (String "S" (d1 +:+ String "E" d2)).
    simpl. by rewrite (split_E_digits_app d1 d2 H1), (split_E_digits d2 H2).
  - destruct d2; [done|]. exact H2.
Qed.

Lemma finditer_SE_from_match skip s m :
  m ∈ PyStr.finditer_SE_from skip s → ∃ s', PyStr.match_SE s' = Some m.
Proof.
  revert skip. induction s as [|c s IH]; intros skip; cbn [PyStr.finditer_SE_from].
  - by intros ?%elem_of_nil.
  - destruct skip as [|k]; [|apply IH].
    destruct (PyStr.match_SE (String c s)) as [m'|] eqn:E; [|apply IH].
    intros [->|Hm]%elem_of_cons; [eauto | by apply IH in Hm].
Qed.

(** The loop over the matches returns at the first match: the handler of the
    [try] is never reached. *)
Lemma extract_episode_index_from_normalized_form_first str :
  _extract_episode_index_from_normalized_form str
  = match PyStr.finditer_SE str with
    | [] => None
    | str_episode :: _ =>
        PyStr.int <$> (PyStr.split "E" str_episode !! 1)
    end
  ∧ ∀ str_episode, str_episode ∈ PyStr.finditer_SE str →
                   is_Some (PyStr.split "E" str_episode !! 1).
Proof.
  unfold _extract_episode_index_from_normalized_form. split.
  - destruct (PyStr.finditer_SE str) as [|m r] eqn:E; [done|].
    assert (m ∈ PyStr.finditer_SE str) as Hm by (rewrite E; left).
    apply finditer_SE_from_match in Hm as [s' Hs'].
    apply match_SE_split in Hs' as (d1 & d2 & Hsplit & Hnum).
    cbn [normalized_form_loop]. rewrite Hsplit. cbn [lookup list_lookup].
    by rewrite Hnum.
  - intros m [s' Hs']%finditer_SE_from_match.
    apply match_SE_split in Hs' as (d1 & d2 & -> & _). by eexists.
Qed.

Lemma all_digits_app a b :
  PyStr.all_digits (a +:+ b) = PyStr.all_digits a && PyStr.all_digits b.
Proof.
  induction a as [|x a IH]; [done|].
  rewrite string_app_cons. cbn [PyStr.all_digits]. by rewrite IH, andb_assoc.
Qed.

(** Every run of [[0-9]+] is numeric: the loop of
    [_extract_number_from_string] returns at the first run. *)
Lemma digit_runs_from_numeric cur s run :
  PyStr.all_digits cur = true →
  run ∈ PyStr.digit_runs_from cur s → PyStr.isnumeric run = true.
Proof.
  revert cur. induction s as [|c s IH]; intros cur Hcur; simpl.
  - destruct (String.eqb cur "") eqn:E; [by intros ?%elem_of_nil|].
    intros ->%list_elem_of_singleton. destruct cur; done.
  - destruct (PyStr.is_digit c) eqn:Hc.
    + apply IH. rewrite all_digits_app, Hcur. simpl. by rewrite Hc.
    + destruct (String.eqb cur "") eqn:E; [by apply IH|].
      intros [->|Hrun]%elem_of_cons; [destruct cur; done | by apply (IH "")].
Qed.

Lemma extract_number_from_string_first str :
  _extract_number_from_string str = PyStr.int <$> head (PyStr.finditer_digits str).
Proof.
  unfold _extract_number_from_string.
  destruct (PyStr.finditer_digits str) as [|run r] eqn:E; [done|].
  simpl. rewrite (digit_runs_from_numeric "" str run); [done | done |].
  unfold PyStr.finditer_digits in E. rewrite E. left.
Qed.

(** [split] always yields a first token, so the test [len(splited) > 0] of
    [_extract_episode_index_from_file_name] always holds. *)
Lemma split_first_token sep s : ∃ tok r, PyStr.split sep s = tok :: r.
Proof.
  induction s as [|c s (tok & r & IH)]; simpl; [eauto|].
  destruct (Ascii.eqb c sep); [eauto|]. rewrite IH. eauto.
Qed.

End Regex.

(** ** The monad *)

Lemma bind_unfold {A B} (m : M A) (k : A → M B) : (m ≫= k) = bind m k.
Proof. reflexivity. Qed.

Lemma bind_returns {A B} (m : M A) (k : A → M B) l a l' r :
  m = (l, inr a) → k a = (l', r) → (m ≫= k) = (l ++ l', r).
Proof. intros -> Hk. rewrite bind_unfold. unfold bind. by rewrite Hk. Qed.

Lemma bind_raises {A B} (m : M A) (k : A → M B) l e :
  m = (l, inl e) → (m ≫= k) = (l, inl e).
Proof. by intros ->. Qed.

Lemma bind_inv_inr {A B} (m : M A) (k : A → M B) l b :
  (m ≫= k) = (l, inr b) →
  ∃ l1 a l2, m = (l1, inr a) ∧ k a = (l2, inr b) ∧ l = l1 ++ l2.
Proof.
  rewrite bind_unfold. unfold bind. destruct m as [l1 [e|a]]; [done|].
  destruct (k a) as [l2 r] eqn:Hk. intros [= <- ->]. by exists l1, a, l2.
Qed.

Lemma outcome_bind_returns {A B} (m : M A) (k : A → M B) a :
  outcome m = inr a → outcome (m ≫= k) = outcome (k a).
Proof.
  rewrite bind_unfold. destruct m as [l [e|a']]; simpl; [done|].
  intros [= ->]. by destruct (k a).
Qed.

Lemma outcome_bind_raises {A B} (m : M A) (k : A → M B) e :
  outcome m = inl e → outcome (m ≫= k) = inl e.
Proof.
  rewrite bind_unfold. destruct m as [l [e'|a']]; simpl; [by intros [= ->] | done].
Qed.

Lemma diagnostics_bind_returns {A B} (m : M A) (k : A → M B) a :
  outcome m = inr a → diagnostics (m ≫= k) = diagnostics m ++ diagnostics (k a).
Proof.
  rewrite bind_unfold. destruct m as [l [e|a']]; simpl; [done|].
  intros [= ->]. by destruct (k a).
Qed.

(** ** Prefix removal *)

Section PrefixRemoval.
Import Vocabulary.

Lemma prefix_app (p b : string) : String.prefix p (p +:+ b) = true.
Proof.
  induction p as [|c p IH]; [by destruct b|].
  rewrite string_app_cons. simpl. by destruct (ascii_dec c c).
Qed.

Lemma prefix_nil (s : string) : String.prefix "" s = true.
Proof. by destruct s. Qed.

Lemma replace_from_skip old new s1 s2 :
  PyStr.replace_from old new (String.length s1) (s1 +:+ s2)
  = PyStr.replace_from old new 0 s2.
Proof. induction s1 as [|c s1 IH]; [done|]. by rewrite string_app_cons. Qed.

Lemma replace_unfold c old new s :
  PyStr.replace (String c old) new s = PyStr.replace_from (String c old) new 0 s.
Proof. reflexivity. Qed.

(** A title without an occurrence is left as it is. *)
Lemma replace_no_occurrence c old new s :
  PyStr.contains (String c old) s = false →
  PyStr.replace (String c old) new s = s.
Proof.
  rewrite replace_unfold. induction s as [|x s IH]; [done|].
  intros [Hp Hc]%orb_false_iff.
  cbn [PyStr.replace_from]. rewrite Hp. f_equal. by apply IH.
Qed.

(** The leftmost occurrence is replaced and the scan goes on behind it. *)
Lemma replace_first_occurrence c old new a b :
  (∀ a1 a2, a = a1 +:+ a2 → a2 ≠ "" →
            String.prefix (String c old) (a2 +:+ String c old +:+ b) = false) →
  PyStr.replace (String c old) new (a +:+ String c old +:+ b)
  = a +:+ new +:+ PyStr.replace (String c old) new b.
Proof.
  rewrite !replace_unfold. induction a as [|x a IH]; intros Hfirst.
  - rewrite string_app_nil_l.
    change (String c old +:+ b) with (String c (old +:+ b)).
    cbn [PyStr.replace_from].
    change (String c (old +:+ b)) with (String c old +:+ b).
    rewrite prefix_app.
    replace (String.length (String c old) - 1) with (String.length old)
      by (simpl; lia).
    by rewrite replace_from_skip.
  - assert (String.prefix (String c old) (String x a +:+ String c old +:+ b)
            = false) as H0 by (by apply (Hfirst "" (String x a))).
    rewrite !string_app_cons in *. cbn [PyStr.replace_from]. rewrite H0.
    f_equal. apply IH. intros a1 a2 -> Hne.
    apply (Hfirst (String x a1) a2); [by rewrite string_app_cons | done].
Qed.

Lemma replace_nil_old s : PyStr.replace "" "" s = s.
Proof.
  unfold PyStr.replace. induction s as [|c s IH]; [done|].
  simpl. rewrite string_app_nil_l. by f_equal.
Qed.

Section WithSuffix.
Variable trunc_suffix_from_file_name : string → string.

(** C7, as amended.  Prefix removal deletes every non-overlapping occurrence
    of the detected prefix, scanning the normalized, suffix-stripped title
    from the left: an empty prefix and a title without occurrence leave the
    title as it is, and behind the leftmost occurrence the removal goes on in
    the rest of the title. *)
Theorem prefix_removed_every_occurrence (file_name prefix : string) :
  let title := trunc_suffix_from_file_name (replace_special_chars file_name) in
  let removed := TVAnalyzer.prefix_removed trunc_suffix_from_file_name in
  (prefix = "" → removed file_name prefix = title)
  ∧ (prefix ≠ "" → PyStr.contains prefix title = false →
     removed file_name prefix = title)
  ∧ (∀ a b, prefix ≠ "" → title = a +:+ prefix +:+ b →
            (∀ a1 a2, a = a1 +:+ a2 → a2 ≠ "" →
                      String.prefix prefix (a2 +:+ prefix +:+ b) = false) →
            removed file_name prefix = a +:+ PyStr.replace prefix "" b).
Proof.
  unfold TVAnalyzer.prefix_removed. simpl. split; [|split].
  - intros ->. apply replace_nil_old.
  - destruct prefix as [|c old]; [done|]. intros _. apply replace_no_occurrence.
  - intros a b Hne -> Hfirst. destruct prefix as [|c old]; [done|].
    rewrite replace_first_occurrence by done. by rewrite string_app_nil_l.
Qed.

End WithSuffix.
End PrefixRemoval.

(** Both occurrences of ["a "] go. *)
Lemma prefix_removed_every_occurrence_witness :
  TVAnalyzer.prefix_removed Samples.no_suffix "a a 01" "a " = "01".
Proof.
  destruct (prefix_removed_every_occurrence Samples.no_suffix "a a 01" "a ")
    as (_ & _ & H).
  rewrite (H "" "a 01"); [reflexivity | discriminate | reflexivity |].
  intros [|x a1] a2 Ha Hne.
  - change ("" = a2) in Ha. by subst a2.
  - rewrite string_app_cons in Ha. discriminate.
Defined.

(** C7, as stated, fails: in ["a a 01"; "a b 02"] the detected prefix is
    ["a "], and it occurs twice in the first title.  The source deletes both
    occurrences, where deleting the first only would leave ["a 01"]. *)
Lemma prefix_removed_first_only_counterexample :
  outcome (TVAnalyzer._get_file_name_prefix
             [Samples.media "a a 01"; Samples.media "a b 02"]) = inr "a "
  ∧ TVAnalyzer.prefix_removed Samples.no_suffix "a a 01" "a " = "01"
  ∧ Vocabulary.remove_first_occurrence "a "
      (Samples.no_suffix (replace_special_chars "a a 01")) = "a 01"
  ∧ TVAnalyzer.prefix_removed Samples.no_suffix "a a 01" "a "
    ≠ Vocabulary.remove_first_occurrence "a "
        (Samples.no_suffix (replace_special_chars "a a 01")).
Proof. repeat split; try reflexivity. discriminate. Qed.

(** ** Episode extraction *)

Section Episodes.
Import TVAnalyzer Vocabulary.
Variable trunc_suffix_from_file_name : string → string.

Local Abbreviation extract :=
  (_extract_episode_index_from_file_name trunc_suffix_from_file_name).
Local Abbreviation step := (episode_step trunc_suffix_from_file_name).
Local Abbreviation loop := (episode_loop trunc_suffix_from_file_name).

(** The only exception of per-file extraction is [EpisodeIndexNotFound]. *)
Lemma extract_raises file_name prefix e :
  extract file_name prefix = inl e → e = EpisodeIndexNotFoundException.
Proof.
  unfold _extract_episode_index_from_file_name, index_of_token.
  repeat case_match; intros [= <-]; done.
Qed.

(** The three outcomes of one iteration. *)
Lemma episode_step_not_found p st f :
  extract (file_title f) p = inl EpisodeIndexNotFoundException →
  step p st f
  = ([LogInfo ("Episode index not found from " +:+ file_title f)],
     inr (mkEpisodeState (episodes st)
            (episode_index_not_found_files st ++ [f]))).
Proof. unfold episode_step. by intros ->. Qed.

Lemma episode_step_duplicate p st f n g :
  extract (file_title f) p = inr n → episodes st !! n = Some g →
  step p st f
  = ([LogInfo ("Duplicated episode index found from " +:+ file_title f)],
     inr (mkEpisodeState (episodes st)
            (episode_index_not_found_files st ++ [f]))).
Proof. unfold episode_step. by intros -> ->. Qed.

Lemma episode_step_fresh p st f n :
  extract (file_title f) p = inr n → episodes st !! n = None →
  step p st f
  = ([], inr (mkEpisodeState (<[n := f]> (episodes st))
                (episode_index_not_found_files st))).
Proof. unfold episode_step. by intros -> ->. Qed.

(** An iteration never raises. *)
Lemma episode_step_returns p st f : ∃ l st', step p st f = (l, inr st').
Proof.
  destruct (extract (file_title f) p) as [e|n] eqn:E.
  - rewrite (extract_raises _ _ _ E) in E.
    rewrite (episode_step_not_found _ _ _ E). eauto.
  - destruct (episodes st !! n) as [g|] eqn:G.
    + rewrite (episode_step_duplicate _ _ _ _ _ E G). eauto.
    + rewrite (episode_step_fresh _ _ _ _ E G). eauto.
Qed.

Lemma episode_loop_returns p files st : ∃ l st', loop p st files = (l, inr st').
Proof.
  revert st. induction files as [|f r IH]; intros st; simpl.
  - by exists [], st.
  - destruct (episode_step_returns p st f) as (l1 & st1 & H1).
    destruct (IH st1) as (l2 & st2 & H2).
    exists (l1 ++ l2), st2. by apply (bind_returns _ _ _ _ _ _ H1).
Qed.


(** What one iteration preserves. *)
Lemma episode_step_mono p st f l st' :
  step p st f = (l, inr st') →
  (∀ n g, episodes st !! n = Some g → episodes st' !! n = Some g)
  ∧ (∀ g, g ∈ episode_index_not_found_files st →
          g ∈ episode_index_not_found_files st').
Proof.
  destruct (extract (file_title f) p) as [e|n] eqn:E.
  - rewrite (extract_raises _ _ _ E) in E.
    rewrite (episode_step_not_found _ _ _ E). intros [= <- <-]. simpl.
    split; [done|]. intros g Hg. apply elem_of_app. by left.
  - destruct (episodes st !! n) as [g|] eqn:G.
    + rewrite (episode_step_duplicate _ _ _ _ _ E G). intros [= <- <-]. simpl.
      split; [done|]. intros g' Hg. apply elem_of_app. by left.
    + rewrite (episode_step_fresh _ _ _ _ E G). intros [= <- <-]. simpl.
      split; [|done]. intros m g Hm.
      rewrite lookup_insert_ne; [done|]. intros ->. congruence.
Qed.

Lemma episode_loop_mono p files st l st' :
  loop p st files = (l, inr st') →
  (∀ n g, episodes st !! n = Some g → episodes st' !! n = Some g)
  ∧ (∀ g, g ∈ episode_index_not_found_files st →
          g ∈ episode_index_not_found_files st').
Proof.
  revert st l. induction files as [|f r IH]; intros st l; simpl.
  - by intros [= <- <-].
  - intros (la & sa & lb & Ha & Hb & ->)%bind_inv_inr.
    destruct (episode_step_mono _ _ _ _ _ Ha) as [Ha1 Ha2].
    destruct (IH _ _ Hb) as [Hb1 Hb2]. split; eauto.
Qed.

(** Every key of the map is the index extracted from the file it maps to,
    and that file is one of the files visited. *)
Lemma episode_loop_keys p files st l st' :
  loop p st files = (l, inr st') →
  ∀ n g, episodes st' !! n = Some g →
         episodes st !! n = Some g
         ∨ (g ∈ files ∧ extract (file_title g) p = inr n).
Proof.
  revert st l. induction files as [|f r IH]; intros st l; simpl.
  - intros [= <- <-]. auto.
  - intros (la & sa & lb & Ha & Hb & ->)%bind_inv_inr n g Hn.
    destruct (IH _ _ Hb n g Hn) as [Hsa|[Hin Hex]].
    + revert Ha. destruct (extract (file_title f) p) as [e|m] eqn:E.
      * rewrite (extract_raises _ _ _ E) in E.
        rewrite (episode_step_not_found _ _ _ E). intros [= <- <-]. by left.
      * destruct (episodes st !! m) as [g'|] eqn:G.
        -- rewrite (episode_step_duplicate _ _ _ _ _ E G). intros [= <- <-]. by left.
        -- rewrite (episode_step_fresh _ _ _ _ E G). intros [= <- <-].
           simpl in Hsa. destruct (decide (m = n)) as [->|Hne].
           ++ rewrite lookup_insert_eq in Hsa. injection Hsa as ->.
              right. split; [left | done].
           ++ rewrite lookup_insert_ne in Hsa by done. by left.
    + right. split; [by right | done].
Qed.

Lemma get_file_name_prefix_returns files :
  ∃ l, _get_file_name_prefix files = (l, inr (discovered_prefix files)).
Proof.
  unfold discovered_prefix, _get_file_name_prefix.
  destruct (0 <=? _)%Z; simpl; eauto.
Qed.

Lemma get_episodes_state_unfold files :
  ∃ l1 l2 st,
    get_episodes_state trunc_suffix_from_file_name files = (l1 ++ l2, inr st)
    ∧ loop (discovered_prefix files) (mkEpisodeState ∅ []) files = (l2, inr st).
Proof.
  destruct (get_file_name_prefix_returns files) as [l1 H1].
  destruct (episode_loop_returns (discovered_prefix files) files
              (mkEpisodeState ∅ [])) as (l2 & st & H2).
  exists l1, l2, st. split; [|done].
  unfold get_episodes_state. by apply (bind_returns _ _ _ _ _ _ H1).
Qed.

Lemma get_episodes_unfold files l st :
  get_episodes_state trunc_suffix_from_file_name files = (l, inr st) →
  _get_episodes trunc_suffix_from_file_name files = (l, inr (episodes st)).
Proof.
  intros H. unfold _get_episodes.
  rewrite (bind_returns _ _ _ _ [] (inr (episodes st)) H); [|done].
  by rewrite app_nil_r.
Qed.

Lemma get_episodes_never_raises files :
  ∃ l st, _get_episodes trunc_suffix_from_file_name files = (l, inr st).
Proof.
  destruct (get_episodes_state_unfold files) as (l1 & l2 & st & Hst & _).
  exists (l1 ++ l2), (episodes st). by apply get_episodes_unfold.
Qed.


End Episodes.


(** C5, the failing input.  For the token [S01E00] the digits after [E]
    give 0, which the test [if index:] takes for "no index": the season
    number 1 is returned instead.  For [S00E00] both fallbacks give 0 and
    [EpisodeIndexNotFoundException] is raised although both matched.  In
    ["Show S01E00"; "Show S01E01"] episode 0 takes index 1 and episode 1 is
    diverted as a duplicate. *)
Theorem episode_index_zero_falls_through :
  TVAnalyzer._extract_episode_index_from_normalized_form "S01E00" = Some 0%N
  ∧ TVAnalyzer.index_of_token "S01E00" = inr 1%N
  ∧ TVAnalyzer._extract_episode_index_from_file_name Samples.no_suffix
      "Show S01E00" "Show " = inr 1%N
  ∧ TVAnalyzer.index_of_token "S00E00" = inl EpisodeIndexNotFoundException
  ∧ ∃ l st,
      TVAnalyzer.get_episodes_state Samples.no_suffix
        [Samples.media "Show S01E00"; Samples.media "Show S01E01"]
      = (l, inr st)
      ∧ TVAnalyzer.episodes st = {[ 1%N := Samples.media "Show S01E00" ]}
      ∧ TVAnalyzer.episode_index_not_found_files st
        = [Samples.media "Show S01E01"].
Proof.
  repeat split; try reflexivity.
  eexists _, _. split; [vm_compute; reflexivity|]. split; reflexivity.
Qed.

(** ** The tree *)

Section Tree.
Import Vocabulary.

(** Induction over a folder, with the property at hand for every direct
    subfolder. *)
Lemma Folder_children_ind (P : Folder → Prop) :
  (∀ t p ss, Forall P (folders_of ss) → P (mkFolder t p ss)) → ∀ d, P d.
Proof.
  intros step. fix IH 1. intros [t p ss]. apply step.
  induction ss as [|[f|c] r IHr]; simpl.
  - constructor.
  - exact IHr.
  - constructor; [apply IH | exact IHr].
Qed.

(** A folder is larger than each of its subfolders, so it is none of
    them. *)
Lemma folder_size_child d c :
  c ∈ get_folders d → Terms.folder_size c < Terms.folder_size d.
Proof.
  destruct d as [t p ss]. unfold get_folders. simpl.
  induction ss as [|[f|c'] r IH]; simpl; intros Hc.
  - by apply elem_of_nil in Hc.
  - by apply IH.
  - apply elem_of_cons in Hc as [->|Hc]; [lia|]. apply IH in Hc. lia.
Qed.

Lemma folder_not_own_child d : d ∉ get_folders d.
Proof. intros H%folder_size_child. lia. Qed.

Lemma elem_of_subtree_files f t p ss :
  f ∈ subtree_files (mkFolder t p ss)
  ↔ f ∈ files_of ss ∨ ∃ c, c ∈ folders_of ss ∧ f ∈ subtree_files c.
Proof.
  simpl. induction ss as [|[g|c] r IH]; simpl.
  - split; [by intros ?%elem_of_nil|].
    intros [?%elem_of_nil|(c & ?%elem_of_nil & _)]; done.
  - rewrite !elem_of_cons, IH. tauto.
  - rewrite elem_of_app, IH. split.
    + intros [H|[H|(c' & Hc' & H)]]; [right; exists c | by left | right; exists c'].
      * split; [left | done].
      * split; [by right | done].
    + intros [H|(c' & [->|Hc']%elem_of_cons & H)]; [by right; left | by left |].
      right. right. by exists c'.
Qed.

Lemma contains_subtitle_file_unfold t p ss :
  contains_subtitle_file (mkFolder t p ss)
  = existsb (λ f, is_subtitle_type (get_file_type f)) (files_of ss)
    || existsb contains_subtitle_file (folders_of ss).
Proof.
  simpl. induction ss as [|[g|c] r IH]; simpl; [done | |].
  - by rewrite IH, orb_assoc.
  - rewrite IH. by destruct (contains_subtitle_file c), (existsb _ (files_of r)).
Qed.

(** The containment query is true exactly when a subtitle file lies in the
    subtree. *)
Lemma contains_subtitle_file_spec d :
  contains_subtitle_file d = true ↔ subtitle_in_subtree d.
Proof.
  induction d as [t p ss IH] using Folder_children_ind.
  rewrite contains_subtitle_file_unfold, orb_true_iff, !existsb_exists.
  unfold subtitle_in_subtree. split.
  - intros [(f & Hf & Hs)|(c & Hc & Hs)].
    + exists f. split; [|done]. apply elem_of_subtree_files. left.
      by apply list_elem_of_In.
    + apply list_elem_of_In in Hc.
      rewrite Forall_forall in IH. apply (IH c Hc) in Hs as (f & Hf & Hs).
      exists f. split; [|done]. apply elem_of_subtree_files. right. eauto.
  - intros (f & [Hf|(c & Hc & Hf)]%elem_of_subtree_files & Hs).
    + left. exists f. split; [by apply list_elem_of_In | done].
    + right. exists c. split; [by apply list_elem_of_In|].
      rewrite Forall_forall in IH. apply (IH c Hc). by exists f.
Qed.

Lemma contains_subtitle_file_false d :
  contains_subtitle_file d = false ↔ ¬ subtitle_in_subtree d.
Proof.
  rewrite <- contains_subtitle_file_spec. by destruct (contains_subtitle_file d).
Qed.

Lemma get_files_subtree d f : f ∈ get_files d → f ∈ subtree_files d.
Proof. destruct d as [t p ss]. intros H. apply elem_of_subtree_files. by left. Qed.

Lemma get_folders_subtree d c f :
  c ∈ get_folders d → f ∈ subtree_files c → f ∈ subtree_files d.
Proof.
  destruct d as [t p ss]. intros Hc Hf. apply elem_of_subtree_files. right. eauto.
Qed.

Lemma first_subtitle_folder_elem ss elem :
  GeneralMediaAnalyzer.first_subtitle_folder ss = Some elem →
  elem ∈ folders_of ss.
Proof.
  induction ss as [|[f|c] r IH]; simpl; [done | done |].
  destruct (contains_subtitle_file c).
  - intros [= ->]. left.
  - intros H. right. by apply IH.
Qed.

End Tree.

(** ** Subtitle discovery *)

Section Subtitles.
Import Vocabulary GeneralMediaAnalyzer.

Lemma get_subtitle_file_returns folder :
  ∃ l subs, _get_subtitle_file folder = (l, inr subs).
Proof. unfold _get_subtitle_file. destruct (Nat.eqb _ _); simpl; eauto. Qed.

Lemma get_subtitle_file_none folder :
  (∀ f, f ∈ get_files folder → is_subtitle f = false) →
  ∃ d, _get_subtitle_file folder = ([d], inr []).
Proof.
  intros Hnone. unfold _get_subtitle_file.
  assert (List.filter is_subtitle (get_files folder) = []) as ->.
  { induction (get_files folder) as [|f r IH]; simpl; [done|].
    rewrite (Hnone f) by left. apply IH. intros g Hg. apply Hnone. by right. }
  simpl. eauto.
Qed.

Lemma analyze_subtitles_returns root :
  ∃ l subs, _analyze_subtitles root = (l, inr subs).
Proof.
  unfold _analyze_subtitles. destruct (contains_subtitle_file root).
  - apply get_subtitle_file_returns.
  - destruct (first_subtitle_folder _).
    + apply get_subtitle_file_returns.
    + simpl. eauto.
Qed.

(** C9.  For a folder whose subtree holds no subtitle and no
    archived-subtitle file, [_analyze_subtitles] returns the empty list and
    emits one diagnostic; and it raises for no folder at all. *)
Theorem analyze_subtitles_nothing_found (root : Folder) :
  (∀ f, f ∈ subtree_files root →
        get_file_type f ≠ SUBTITLE ∧ get_file_type f ≠ ARCHIVED_SUBTITLE) →
  (∃ d, _analyze_subtitles root = ([d], inr []))
  ∧ (∀ folder, ∃ l subs, _analyze_subtitles folder = (l, inr subs)).
Proof.
  intros Hnone. split; [|apply analyze_subtitles_returns].
  assert (∀ f, f ∈ subtree_files root → is_subtitle f = false) as Hsub.
  { intros f Hf. destruct (Hnone f Hf) as [H1 H2]. unfold is_subtitle.
    by destruct (get_file_type f). }
  unfold _analyze_subtitles. destruct (contains_subtitle_file root).
  - apply get_subtitle_file_none. intros f Hf. by apply Hsub, get_files_subtree.
  - destruct (first_subtitle_folder _) as [elem|] eqn:E.
    + apply get_subtitle_file_none. intros f Hf. apply Hsub.
      apply (get_folders_subtree root elem).
      * by apply first_subtitle_folder_elem.
      * by apply get_files_subtree.
    + simpl. eauto.
Qed.

End Subtitles.

(** A season folder without any subtitle. *)
Lemma analyze_subtitles_nothing_found_witness :
  ∃ d, GeneralMediaAnalyzer._analyze_subtitles Samples.season_without_subtitles
       = ([d], inr []).
Proof.
  refine (proj1 (analyze_subtitles_nothing_found
                   Samples.season_without_subtitles _)).
  intros f Hf. vm_compute in Hf.
  repeat (apply elem_of_cons in Hf as [->|Hf]; [by split|]).
  by apply elem_of_nil in Hf.
Defined.

(** ** The archive search *)

Section ArchiveSearch.
Import Vocabulary GeneralSubtitleExtractor.

(** The function as the source has it: the query first, then the first
    subfolder only. *)
Lemma find_subtitle_containing_folder_unfold root :
  _find_subtitle_containing_folder root
  = if contains_subtitle_file root then inr root
    else match get_folders root with
         | child :: _ => _find_subtitle_containing_folder child
         | [] => inl (NoSubtitleFileException (no_subtitle_message root))
         end.
Proof.
  destruct root as [t p ss].
  change (_find_subtitle_containing_folder (mkFolder t p ss))
    with (if contains_subtitle_file (mkFolder t p ss) then inr (mkFolder t p ss)
          else (fix first_child (ss : list Structable) : Result Folder :=
                  match ss with
                  | [] => inl (NoSubtitleFileException
                                 (no_subtitle_message (mkFolder t p ss)))
                  | AFile _ :: r => first_child r
                  | AFolder child :: _ => _find_subtitle_containing_folder child
                  end) ss).
  destruct (contains_subtitle_file (mkFolder t p ss)); [done|].
  unfold get_folders, get_structs.
  induction ss as [|[f|c] r IH]; done.
Qed.

(** C10.  The archive search returns the folder it is given as soon as a
    subtitle file lies anywhere in its subtree, also when none is among its
    direct contents; otherwise it goes on in the first subfolder only, and
    it raises [NoSubtitleFileException] exactly when this descent ends in a
    folder without subfolders and without subtitle file in its subtree. *)
Theorem archive_search_leftmost_descent (root : Folder) :
  (subtitle_in_subtree root → _find_subtitle_containing_folder root = inr root)
  ∧ (¬ subtitle_in_subtree root →
     _find_subtitle_containing_folder root
     = match get_folders root with
       | child :: _ => _find_subtitle_containing_folder child
       | [] => inl (NoSubtitleFileException (no_subtitle_message root))
       end)
  ∧ ((∃ msg, _find_subtitle_containing_folder root
             = inl (NoSubtitleFileException msg))
     ↔ ∃ leaf, leftmost_descent root leaf ∧ get_folders leaf = []
               ∧ ¬ subtitle_in_subtree leaf)
  ∧ (∀ e, _find_subtitle_containing_folder root = inl e →
          ∃ msg, e = NoSubtitleFileException msg).
Proof.
  split; [|split; [|split]].
  - intros H%contains_subtitle_file_spec.
    by rewrite find_subtitle_containing_folder_unfold, H.
  - intros H%contains_subtitle_file_false.
    by rewrite find_subtitle_containing_folder_unfold, H.
  - split.
    + induction root as [t p ss IH] using Folder_children_ind.
      rewrite find_subtitle_containing_folder_unfold.
      destruct (contains_subtitle_file (mkFolder t p ss)) eqn:Hq;
        [by intros [? ?]|].
      apply contains_subtitle_file_false in Hq.
      destruct (get_folders (mkFolder t p ss)) as [|child rest] eqn:Hf.
      * intros _. exists (mkFolder t p ss). split; [constructor | done].
      * intros Hraise. unfold get_folders, get_structs in Hf.
        rewrite Hf in IH. apply Forall_cons in IH as [IHc _].
        destruct (IHc Hraise) as (leaf & Hd & Hleaf).
        exists leaf. split; [|done]. by apply (descent_step _ child rest).
    + intros (leaf & Hd & Hnil & Hnone).
      induction Hd as [d|d c rest leaf Hq Hf Hd IH];
        rewrite find_subtitle_containing_folder_unfold.
      * apply contains_subtitle_file_false in Hnone. rewrite Hnone, Hnil. eauto.
      * apply contains_subtitle_file_false in Hq. rewrite Hq, Hf. by apply IH.
  - induction root as [t p ss IH] using Folder_children_ind. intros e.
    rewrite find_subtitle_containing_folder_unfold.
    destruct (contains_subtitle_file (mkFolder t p ss)); [done|].
    destruct (get_folders (mkFolder t p ss)) as [|child rest] eqn:Hf.
    + intros [= <-]. eauto.
    + unfold get_folders, get_structs in Hf. rewrite Hf in IH.
      apply Forall_cons in IH as [IHc _]. apply IHc.
Qed.

End ArchiveSearch.

(** The subtitle lies two levels down, and the root is returned. *)
Lemma archive_search_leftmost_descent_witness :
  GeneralSubtitleExtractor._find_subtitle_containing_folder Samples.archive_deep
  = inr Samples.archive_deep.
Proof.
  refine (proj1 (archive_search_leftmost_descent Samples.archive_deep) _).
  exists (Samples.subtitle "Show 01 srt"). split; [|reflexivity].
  vm_compute. do 2 right. left.
Defined.

(** ** Seasons *)

Section Seasons.
Import TVAnalyzer Vocabulary.
Variable SEASON_ALIASES : list string.
Variable trunc_suffix_from_file_name : string → string.

Local Abbreviation step := (season_step SEASON_ALIASES trunc_suffix_from_file_name).
Local Abbreviation loop := (season_loop SEASON_ALIASES trunc_suffix_from_file_name).
Local Abbreviation entry := (season_entry SEASON_ALIASES trunc_suffix_from_file_name).
Local Abbreviation record := (record_season SEASON_ALIASES trunc_suffix_from_file_name).
Local Abbreviation key_of := (season_key SEASON_ALIASES).
Local Abbreviation media_root_of := (_find_media_root SEASON_ALIASES).
Local Abbreviation season_folders_of := (_find_season_folders SEASON_ALIASES).

Lemma bind_ret_l {A B} (a : A) (k : A → M B) : (mret a ≫= k) = k a.
Proof. rewrite bind_unfold. unfold mret, M_ret, ret, bind. by destruct (k a). Qed.

Lemma get_episodes_returns files :
  ∃ l, _get_episodes trunc_suffix_from_file_name files
       = (l, inr (episodes_of trunc_suffix_from_file_name files)).
Proof.
  destruct (get_episodes_never_raises trunc_suffix_from_file_name files)
    as (l & st & H).
  exists l. unfold episodes_of, value. by rewrite H.
Qed.

Lemma analyze_subtitles_value root :
  ∃ l, GeneralMediaAnalyzer._analyze_subtitles root = (l, inr (subtitles_of root)).
Proof.
  destruct (analyze_subtitles_returns root) as (l & subs & H).
  exists l. unfold subtitles_of, value. by rewrite H.
Qed.

(** What follows the choice of the season index in one iteration. *)
Lemma season_step_record builder media_root seasons season_root :
  (¬ unnumbered SEASON_ALIASES season_root
   ∨ length (get_folders media_root) ≤ 1) →
  ∃ l, step builder media_root seasons season_root
       = (l, inr (record builder media_root seasons season_root)).
Proof.
  intros Hres. unfold season_step, record_season, season_entry, season_key.
  unfold unnumbered in Hres.
  destruct (analyze_subtitles_value (media_root_of season_root)) as [l1 H1].
  destruct (get_episodes_returns
              (GeneralMediaAnalyzer._get_media_files (media_root_of season_root)))
    as [l2 H2].
  destruct (extract_season_index SEASON_ALIASES (get_title season_root))
    as [idx|] eqn:E.
  - rewrite bind_ret_l. exists (l1 ++ l2 ++ []).
    apply (bind_returns _ _ _ _ _ _ H1). by apply (bind_returns _ _ _ _ _ _ H2).
  - destruct Hres as [?|Hlen]; [done|].
    rewrite (proj2 (Nat.ltb_ge _ _) Hlen). rewrite bind_ret_l.
    exists (l1 ++ l2 ++ []).
    apply (bind_returns _ _ _ _ _ _ H1). by apply (bind_returns _ _ _ _ _ _ H2).
Qed.

Lemma season_step_raises builder media_root seasons season_root :
  unnumbered SEASON_ALIASES season_root →
  1 < length (get_folders media_root) →
  step builder media_root seasons season_root
  = ([], inl (SeasonIndexNotFoundException season_index_not_found_message)).
Proof.
  unfold unnumbered, season_step. intros -> Hlen.
  by rewrite (proj2 (Nat.ltb_lt _ _) Hlen).
Qed.

Lemma season_loop_returns builder media_root season_folders seasons :
  (∀ s, s ∈ season_folders →
        ¬ unnumbered SEASON_ALIASES s ∨ length (get_folders media_root) ≤ 1) →
  ∃ l, loop builder media_root seasons season_folders
       = (l, inr (foldl (record builder media_root) seasons season_folders)).
Proof.
  revert seasons. induction season_folders as [|s r IH]; intros seasons Hres; simpl.
  - by exists [].
  - destruct (season_step_record builder media_root seasons s) as [l1 H1].
    { apply Hres. left. }
    destruct (IH (record builder media_root seasons s)) as [l2 H2].
    { intros s' Hs'. apply Hres. by right. }
    exists (l1 ++ l2). by apply (bind_returns _ _ _ _ _ _ H1).
Qed.

Lemma season_loop_raises builder media_root season_folders seasons s :
  s ∈ season_folders → unnumbered SEASON_ALIASES s →
  1 < length (get_folders media_root) →
  outcome (loop builder media_root seasons season_folders)
  = inl (SeasonIndexNotFoundException season_index_not_found_message).
Proof.
  intros Hs Hun Hlen. revert seasons.
  induction season_folders as [|s0 r IH]; intros seasons; simpl.
  - by apply elem_of_nil in Hs.
  - destruct (decide (unnumbered SEASON_ALIASES s0)) as [Hun0|Hnum0].
    + by rewrite (season_step_raises _ _ _ _ Hun0 Hlen).
    + destruct (season_step_record builder media_root seasons s0) as [l1 H1];
        [by left|].
      rewrite (outcome_bind_returns _ _ (record builder media_root seasons s0))
        by (by rewrite H1).
      apply IH. apply elem_of_cons in Hs as [->|Hs]; done.
Qed.

End Seasons.

(** ** The analysis as a whole *)

Section BoolFilter.
Context {A : Type}.
Implicit Types (f g : A → bool) (l : list A).

Lemma elem_of_bool_filter f l x : x ∈ List.filter f l ↔ x ∈ l ∧ f x = true.
Proof. rewrite !list_elem_of_In. apply List.filter_In. Qed.

Lemma length_bool_filter f l : length (List.filter f l) ≤ length l.
Proof.
  induction l as [|x l IH]; simpl; [done|]. destruct (f x); simpl; lia.
Qed.

Lemma bool_filter_implies f g l :
  (∀ x, f x = true → g x = true) →
  List.filter f l = List.filter f (List.filter g l).
Proof.
  intros Hfg. induction l as [|x l IH]; simpl; [done|].
  destruct (f x) eqn:Hf.
  - rewrite (Hfg x Hf). simpl. by rewrite Hf, IH.
  - destruct (g x); simpl; [by rewrite Hf|done].
Qed.


End BoolFilter.

Section Analysis.
Import TVAnalyzer Vocabulary.
Variable SEASON_ALIASES : list string.
Variable trunc_suffix_from_file_name : string → string.

Local Abbreviation loop := (season_loop SEASON_ALIASES trunc_suffix_from_file_name).
Local Abbreviation entry := (season_entry SEASON_ALIASES trunc_suffix_from_file_name).
Local Abbreviation record := (record_season SEASON_ALIASES trunc_suffix_from_file_name).
Local Abbreviation flat := (flat_entry SEASON_ALIASES trunc_suffix_from_file_name).
Local Abbreviation key_of := (season_key SEASON_ALIASES).
Local Abbreviation media_root_of := (_find_media_root SEASON_ALIASES).
Local Abbreviation season_folders_of := (_find_season_folders SEASON_ALIASES).
Local Abbreviation builder_for := (builder_of SEASON_ALIASES).
Local Abbreviation analyze_season :=
  (_analyze_season SEASON_ALIASES trunc_suffix_from_file_name).
Local Abbreviation analyze_tv := (analyze SEASON_ALIASES trunc_suffix_from_file_name).

Lemma analyze_unfold root :
  analyze_tv root
  = (analyze_season (builder_for root) (media_root_of root) root
       ≫= λ seasons, mret (metadata_of SEASON_ALIASES root seasons)).
Proof.
  unfold analyze, _analyze, GeneralMediaAnalyzer._analyze.
  rewrite bind_ret_l. fold (builder_for root). simpl builder_media_root.
  rewrite !bind_unfold. unfold bind.
  destruct (analyze_season _ _ _) as [l [e|seasons]]; simpl; [done|].
  by rewrite !app_nil_r.
Qed.

Lemma outcome_analyze_raises root e :
  outcome (analyze_season (builder_for root) (media_root_of root) root) = inl e →
  outcome (analyze_tv root) = inl e.
Proof. intros H. rewrite analyze_unfold. by apply outcome_bind_raises. Qed.

Lemma outcome_analyze_returns root seasons :
  outcome (analyze_season (builder_for root) (media_root_of root) root)
  = inr seasons →
  outcome (analyze_tv root) = inr (metadata_of SEASON_ALIASES root seasons).
Proof.
  intros H. rewrite analyze_unfold. by rewrite (outcome_bind_returns _ _ _ H).
Qed.

Lemma outcome_analyze_inv root md :
  outcome (analyze_tv root) = inr md →
  ∃ seasons,
    outcome (analyze_season (builder_for root) (media_root_of root) root)
    = inr seasons
    ∧ md = metadata_of SEASON_ALIASES root seasons.
Proof.
  destruct (outcome (analyze_season (builder_for root) (media_root_of root) root))
    as [e|seasons] eqn:E.
  - rewrite (outcome_analyze_raises _ _ E). done.
  - rewrite (outcome_analyze_returns _ _ E). intros [= <-]. eauto.
Qed.

(** The two regimes of [_analyze_season]. *)
Lemma analyze_season_flat builder media_root root :
  season_folders_of root = [] →
  ∃ l, analyze_season builder media_root root
       = (l, inr {[ flat_key SEASON_ALIASES media_root
                    := flat builder media_root root ]}).
Proof.
  intros Hnone. unfold _analyze_season. rewrite Hnone.
  destruct (analyze_subtitles_value root) as [l1 H1].
  destruct (get_episodes_returns trunc_suffix_from_file_name
              (GeneralMediaAnalyzer._get_media_files media_root)) as [l2 H2].
  exists (l1 ++ l2 ++ []).
  apply (bind_returns _ _ _ _ _ _ H1). by apply (bind_returns _ _ _ _ _ _ H2).
Qed.

Lemma analyze_season_folders builder media_root root :
  season_folders_of root ≠ [] →
  analyze_season builder media_root root
  = loop builder media_root ∅ (season_folders_of root).
Proof. unfold _analyze_season. by destruct (season_folders_of root). Qed.

(** A loop that returns has recorded every folder, in order. *)
Lemma season_loop_inv builder media_root season_folders seasons result :
  outcome (loop builder media_root seasons season_folders) = inr result →
  result = foldl (record builder media_root) seasons season_folders
  ∧ ∀ s, s ∈ season_folders →
         ¬ unnumbered SEASON_ALIASES s ∨ length (get_folders media_root) ≤ 1.
Proof.
  intros Hres.
  assert (∀ s, s ∈ season_folders →
               ¬ unnumbered SEASON_ALIASES s
               ∨ length (get_folders media_root) ≤ 1) as Hall.
  { intros s Hs. destruct (decide (unnumbered SEASON_ALIASES s)) as [Hun|]; [|by left].
    destruct (decide (1 < length (get_folders media_root))) as [Hlen|]; [|right; lia].
    rewrite (season_loop_raises _ _ _ _ _ _ _ Hs Hun Hlen) in Hres. done. }
  split; [|done].
  destruct (season_loop_returns SEASON_ALIASES trunc_suffix_from_file_name
              builder media_root season_folders seasons Hall) as [l Hl].
  rewrite Hl in Hres. by injection Hres as <-.
Qed.

Lemma foldl_record_lookup builder media_root season_folders seasons idx sm :
  foldl (record builder media_root) seasons season_folders !! idx = Some sm →
  seasons !! idx = Some sm
  ∨ ∃ s, s ∈ season_folders ∧ idx = key_of s ∧ sm = entry builder media_root s.
Proof.
  revert seasons. induction season_folders as [|s0 r IH]; intros seasons; simpl.
  - by left.
  - intros [H|(s & Hs & ? & ?)]%IH.
    + unfold record_season in H. destruct (decide (key_of s0 = idx)) as [<-|Hne].
      * rewrite lookup_insert_eq in H. injection H as <-.
        right. exists s0. split; [left | done].
      * rewrite lookup_insert_ne in H by done. by left.
    + right. exists s. split; [by right | done].
Qed.

Lemma foldl_record_covers builder media_root season_folders seasons :
  (∀ idx, is_Some (seasons !! idx) →
          is_Some (foldl (record builder media_root) seasons season_folders !! idx))
  ∧ ∀ s, s ∈ season_folders →
         is_Some (foldl (record builder media_root) seasons season_folders
                    !! key_of s).
Proof.
  revert seasons. induction season_folders as [|s0 r IH]; intros seasons; simpl.
  - split; [done|]. by intros s ?%elem_of_nil.
  - destruct (IH (record builder media_root seasons s0)) as [IH1 IH2].
    assert (∀ idx, is_Some (seasons !! idx) →
                   is_Some (record builder media_root seasons s0 !! idx)) as Hstep.
    { intros idx Hidx. unfold record_season.
      destruct (decide (key_of s0 = idx)) as [<-|Hne].
      - rewrite lookup_insert_eq. eauto.
      - by rewrite lookup_insert_ne. }
    split; [auto|].
    intros s [->|Hs]%elem_of_cons; [|auto].
    apply IH1. unfold record_season. rewrite lookup_insert_eq. eauto.
Qed.

(** The seasons of a successful analysis, in both regimes. *)
Lemma analyze_seasons_inv root md :
  outcome (analyze_tv root) = inr md →
  (season_folders_of root = [] ∧
   md_seasons md = {[ flat_key SEASON_ALIASES (media_root_of root)
                      := flat (builder_for root) (media_root_of root) root ]})
  ∨ (season_folders_of root ≠ [] ∧
     md_seasons md = foldl (record (builder_for root) (media_root_of root)) ∅
                       (season_folders_of root)).
Proof.
  intros (seasons & Hs & ->)%outcome_analyze_inv. simpl.
  destruct (season_folders_of root) as [|s r] eqn:E.
  - left. split; [done|].
    destruct (analyze_season_flat (builder_for root) (media_root_of root) root E)
      as [l Hl].
    rewrite Hl in Hs. by injection Hs as <-.
  - right. split; [done|].
    rewrite analyze_season_folders in Hs by (by rewrite E).
    rewrite E in Hs. by apply season_loop_inv in Hs as [-> _].
Qed.

(** With an unnumbered season folder and more than one folder under the
    media root, the analysis raises. *)
Lemma analyze_raises_unnumbered root s :
  s ∈ season_folders_of root → unnumbered SEASON_ALIASES s →
  1 < length (get_folders (media_root_of root)) →
  outcome (analyze_tv root)
  = inl (SeasonIndexNotFoundException season_index_not_found_message).
Proof.
  intros Hs Hun Hlen. apply outcome_analyze_raises.
  rewrite analyze_season_folders.
  - by apply (season_loop_raises _ _ _ _ _ _ s).
  - intros E. rewrite E in Hs. by apply elem_of_nil in Hs.
Qed.

Lemma season_like_qualifies folder :
  season_like SEASON_ALIASES folder = true → qualifies SEASON_ALIASES folder = true.
Proof. unfold season_like, qualifies. intros ->. apply orb_true_r. Qed.

End Analysis.

(** ** The season index fallback *)

Section SeasonIndex.
Import TVAnalyzer Vocabulary.
Variable SEASON_ALIASES : list string.
Variable trunc_suffix_from_file_name : string → string.

Local Abbreviation entry := (season_entry SEASON_ALIASES trunc_suffix_from_file_name).
Local Abbreviation media_root_of := (_find_media_root SEASON_ALIASES).
Local Abbreviation season_folders_of := (_find_season_folders SEASON_ALIASES).
Local Abbreviation builder_for := (builder_of SEASON_ALIASES).
Local Abbreviation analyze_tv := (analyze SEASON_ALIASES trunc_suffix_from_file_name).

Lemma season_folders_of_spec root s :
  s ∈ season_folders_of root
  ↔ s ∈ get_folders root ∧ season_like SEASON_ALIASES s = true.
Proof. apply elem_of_bool_filter. Qed.

Lemma season_folders_qualifying root :
  season_folders_of root
  = List.filter (season_like SEASON_ALIASES)
      (List.filter (qualifies SEASON_ALIASES) (get_folders root)).
Proof. apply bool_filter_implies, season_like_qualifies. Qed.


(** Two qualifying children leave the root as the media root. *)
Lemma media_root_of_two root :
  1 < length (List.filter (qualifies SEASON_ALIASES) (get_folders root)) →
  media_root_of root = root.
Proof.
  unfold _find_media_root.
  destruct (List.filter _ _) as [|c [|c' r]]; simpl; [done | lia | done].
Qed.


End SeasonIndex.



(** ** Season folders, season media roots and keys *)

Section SeasonFolders.
Import TVAnalyzer Vocabulary.
Variable SEASON_ALIASES : list string.
Variable trunc_suffix_from_file_name : string → string.

Local Abbreviation entry := (season_entry SEASON_ALIASES trunc_suffix_from_file_name).
Local Abbreviation flat := (flat_entry SEASON_ALIASES trunc_suffix_from_file_name).
Local Abbreviation key_of := (season_key SEASON_ALIASES).
Local Abbreviation media_root_of := (_find_media_root SEASON_ALIASES).
Local Abbreviation season_folders_of := (_find_season_folders SEASON_ALIASES).
Local Abbreviation builder_for := (builder_of SEASON_ALIASES).
Local Abbreviation analyze_tv := (analyze SEASON_ALIASES trunc_suffix_from_file_name).

(** Every season of a successful analysis in the season-folder regime is
    the record of a season folder of the root. *)
Lemma analyze_season_records root md idx sm :
  outcome (analyze_tv root) = inr md →
  season_folders_of root ≠ [] →
  md_seasons md !! idx = Some sm →
  ∃ s, s ∈ season_folders_of root ∧ idx = key_of s
       ∧ sm = entry (builder_for root) (media_root_of root) s.
Proof.
  intros [[Hnil _]|[_ ->]]%analyze_seasons_inv Hne Hsm; [done|].
  apply foldl_record_lookup in Hsm as [Hsm|Hsm]; [|done].
  by rewrite lookup_empty in Hsm.
Qed.

(** C2, as amended.  The season folders that drive per-season resolution
    are exactly the immediate child folders of the analysed root (the folder
    given to [analyze]) whose titles contain a season keyword: without such
    a child the analysis records the one flat season, otherwise every
    recorded season is the record of such a child and every such child is
    recorded under its index.  A season folder is an immediate child of the
    media root if and only if media-root discovery returns the root itself;
    when it returns a child of the root, that child is the only possible
    season folder. *)
Theorem season_folders_children_of_root (root : Folder) (md : Metadata) :
  outcome (analyze_tv root) = inr md →
  (∀ s, s ∈ season_folders_of root
        ↔ s ∈ get_folders root ∧ season_like SEASON_ALIASES s = true)
  ∧ (season_folders_of root = [] →
     md_seasons md = {[ flat_key SEASON_ALIASES (media_root_of root)
                        := flat (builder_for root) (media_root_of root) root ]})
  ∧ (season_folders_of root ≠ [] →
     (∀ idx sm, md_seasons md !! idx = Some sm →
                ∃ s, s ∈ get_folders root ∧ season_like SEASON_ALIASES s = true
                     ∧ idx = key_of s ∧ sm_media_root sm = s
                     ∧ sm = entry (builder_for root) (media_root_of root) s)
     ∧ (∀ s, s ∈ get_folders root → season_like SEASON_ALIASES s = true →
             is_Some (md_seasons md !! key_of s)))
  ∧ (∀ s, s ∈ season_folders_of root →
          (s ∈ get_folders (media_root_of root) ↔ media_root_of root = root))
  ∧ (media_root_of root ≠ root →
     ∀ s, s ∈ season_folders_of root → s = media_root_of root).
Proof.
  intros Hmd. split; [|split; [|split; [|split]]].
  - intros s. apply season_folders_of_spec.
  - intros Hnil. by apply analyze_seasons_inv in Hmd as [[_ ->]|[? _]].
  - intros Hne. split.
    + intros idx sm Hsm.
      destruct (analyze_season_records root md idx sm Hmd Hne Hsm)
        as (s & [Hs Hlike]%season_folders_of_spec & -> & ->).
      by exists s.
    + intros s Hs Hlike.
      apply analyze_seasons_inv in Hmd as [[? _]|[_ ->]]; [done|].
      apply foldl_record_covers. by apply season_folders_of_spec.
  - intros s Hs.
    pose proof (proj1 (proj1 (season_folders_of_spec _ _ _) Hs)) as Hchild.
    rewrite season_folders_qualifying in Hs. unfold _find_media_root.
    destruct (List.filter (qualifies SEASON_ALIASES) (get_folders root))
      as [|c [|c' r]] eqn:E; [done| |done].
    assert (s = c) as ->.
    { simpl in Hs. destruct (season_like SEASON_ALIASES c).
      - by apply list_elem_of_singleton in Hs.
      - by apply elem_of_nil in Hs. }
    split.
    + by intros ?%folder_not_own_child.
    + intros ->. by apply folder_not_own_child in Hchild.
  - intros Hne s Hs. rewrite season_folders_qualifying in Hs.
    unfold _find_media_root in Hne |- *.
    destruct (List.filter (qualifies SEASON_ALIASES) (get_folders root))
      as [|c [|c' r]]; [done| |done].
    simpl in Hs. destruct (season_like SEASON_ALIASES c).
    + by apply list_elem_of_singleton in Hs.
    + by apply elem_of_nil in Hs.
Qed.

(** C3, as amended.  The media root of a season folder is resolved by the
    rule of the TV analyzer: the one immediate child folder that directly
    contains a media file or whose title contains a season keyword, when
    there is exactly one such child, and the season folder itself otherwise.
    The media files and the subtitles of the season are those found from
    that folder. *)
Theorem season_media_root_tv_rule (root : Folder) (md : Metadata) (idx : N)
        (sm : SeasonMetadata) :
  outcome (analyze_tv root) = inr md →
  season_folders_of root ≠ [] →
  md_seasons md !! idx = Some sm →
  let season_root := sm_media_root sm in
  let qualifying := List.filter (qualifies SEASON_ALIASES) (get_folders season_root) in
  season_root ∈ season_folders_of root
  ∧ sm_media_files sm
    = GeneralMediaAnalyzer._get_media_files (media_root_of season_root)
  ∧ sm_subtitles sm = subtitles_of (media_root_of season_root)
  ∧ (∀ child, qualifying = [child] → media_root_of season_root = child)
  ∧ (length qualifying ≠ 1 → media_root_of season_root = season_root).
Proof.
  intros Hmd Hne Hsm.
  destruct (analyze_season_records root md idx sm Hmd Hne Hsm) as (s & Hs & -> & ->).
  simpl. split; [done|]. split; [done|]. split; [done|].
  unfold _find_media_root. split.
  - by intros child ->.
  - by destruct (List.filter _ _) as [|c [|c' r]].
Qed.

End SeasonFolders.

(** ** Keys of the season and episode maps *)

Section Keys.
Import TVAnalyzer Vocabulary.
Variable SEASON_ALIASES : list string.
Variable trunc_suffix_from_file_name : string → string.

Local Abbreviation extract :=
  (_extract_episode_index_from_file_name trunc_suffix_from_file_name).
Local Abbreviation entry := (season_entry SEASON_ALIASES trunc_suffix_from_file_name).
Local Abbreviation flat := (flat_entry SEASON_ALIASES trunc_suffix_from_file_name).
Local Abbreviation media_root_of := (_find_media_root SEASON_ALIASES).
Local Abbreviation season_folders_of := (_find_season_folders SEASON_ALIASES).
Local Abbreviation builder_for := (builder_of SEASON_ALIASES).
Local Abbreviation analyze_tv := (analyze SEASON_ALIASES trunc_suffix_from_file_name).

Lemma truthy_nonzero o n : truthy o = Some n → n ≠ 0%N.
Proof.
  destruct o as [m|]; simpl; [|done].
  destruct (N.eqb m 0) eqn:E; [done|]. intros [= <-]. by apply N.eqb_neq.
Qed.

Lemma flat_key_positive media_root : (1 ≤ flat_key SEASON_ALIASES media_root)%N.
Proof.
  unfold flat_key.
  destruct (truthy _) as [n|] eqn:E; simpl; [|done].
  apply truthy_nonzero in E. lia.
Qed.

(** Only a purely numeric token yields the index 0. *)
Lemma index_of_token_zero tok :
  index_of_token tok = inr 0%N →
  PyStr.isnumeric tok = true ∧ PyStr.int tok = 0%N.
Proof.
  unfold index_of_token. destruct (PyStr.isnumeric tok); [by intros [= ->]|].
  destruct (truthy (_extract_episode_index_from_normalized_form tok)) eqn:E1.
  { intros [= ->]. by apply truthy_nonzero in E1. }
  destruct (truthy (_extract_number_from_string tok)) eqn:E2; [|done].
  intros [= ->]. by apply truthy_nonzero in E2.
Qed.

Lemma extract_zero file_name prefix :
  extract file_name prefix = inr 0%N →
  let tok := first_token trunc_suffix_from_file_name file_name prefix in
  PyStr.isnumeric tok = true ∧ PyStr.int tok = 0%N.
Proof.
  unfold _extract_episode_index_from_file_name, first_token.
  destruct (PyStr.split _ _) as [|tok r]; [done|]. apply index_of_token_zero.
Qed.

(** The keys of an episode map are the indices extracted from its files. *)
Lemma episodes_of_keys files e f :
  episodes_of trunc_suffix_from_file_name files !! e = Some f →
  f ∈ files ∧ extract (file_title f) (discovered_prefix files) = inr e.
Proof.
  destruct (get_episodes_state_unfold trunc_suffix_from_file_name files)
    as (l1 & l2 & st & Hst & Hloop).
  unfold episodes_of, value.
  rewrite (get_episodes_unfold _ _ _ _ Hst). simpl. intros He.
  destruct (episode_loop_keys _ _ _ _ _ _ Hloop e f He) as [H|H]; [|done].
  simpl in H. by rewrite lookup_empty in H.
Qed.

(** C8, as amended.  Every key of the season map of a successful TV
    analysis is at least 1, unless it is the index 0 read from the title of
    a season folder; every key of an episode map is the index of one of the
    media files of the season and is at least 1, unless the first token of
    that file is purely numeric and reads 0. *)
Theorem keys_positive_unless_read_as_zero (root : Folder) (md : Metadata)
        (idx : N) (sm : SeasonMetadata) :
  outcome (analyze_tv root) = inr md →
  md_seasons md !! idx = Some sm →
  ((1 ≤ idx)%N
   ∨ (idx = 0%N ∧ season_folders_of root ≠ []
      ∧ extract_season_index SEASON_ALIASES (sm_original_title sm) = Some 0%N))
  ∧ ∀ e f, sm_episode_files sm !! e = Some f →
           f ∈ sm_media_files sm
           ∧ ((1 ≤ e)%N
              ∨ (e = 0%N
                 ∧ let tok := first_token trunc_suffix_from_file_name (file_title f)
                                (discovered_prefix (sm_media_files sm)) in
                   PyStr.isnumeric tok = true ∧ PyStr.int tok = 0%N)).
Proof.
  intros Hmd Hsm.
  assert (∀ files e f,
            episodes_of trunc_suffix_from_file_name files !! e = Some f →
            f ∈ files
            ∧ ((1 ≤ e)%N
               ∨ (e = 0%N
                  ∧ let tok := first_token trunc_suffix_from_file_name
                                 (file_title f) (discovered_prefix files) in
                    PyStr.isnumeric tok = true ∧ PyStr.int tok = 0%N)))
    as Hepisodes.
  { intros files e f [Hf He]%episodes_of_keys. split; [done|].
    destruct (decide (e = 0%N)) as [->|Hne]; [|left; lia].
    right. split; [done|]. by apply extract_zero. }
  destruct (analyze_seasons_inv _ _ _ _ Hmd) as [[Hnil Hseasons]|[Hne Hseasons]].
  - rewrite Hseasons in Hsm. apply lookup_singleton_Some in Hsm as [<- <-].
    split; [left; apply flat_key_positive|]. apply Hepisodes.
  - rewrite Hseasons in Hsm.
    apply foldl_record_lookup in Hsm as [Hsm|(s & Hs & -> & ->)];
      [by rewrite lookup_empty in Hsm|].
    split; [|apply Hepisodes].
    destruct (decide (season_key SEASON_ALIASES s = 0%N)) as [Hz|Hnz]; [|left; lia].
    right. split; [done|]. split; [done|]. simpl.
    unfold season_key in Hz.
    destruct (extract_season_index SEASON_ALIASES (get_title s)) as [n|];
      simpl in Hz; [by rewrite Hz | done].
Qed.

End Keys.

(** ** The claims on sample trees *)

(** The season recorded for [lone_season] is a child of the root. *)
Lemma season_folders_children_of_root_witness :
  ∃ md, outcome (TVAnalyzer.analyze Samples.aliases Samples.no_suffix
                   Samples.lone_season) = inr md
        ∧ ∀ idx sm, md_seasons md !! idx = Some sm →
                    sm_media_root sm ∈ get_folders Samples.lone_season.
Proof.
  assert (∃ md, outcome (TVAnalyzer.analyze Samples.aliases Samples.no_suffix
                           Samples.lone_season) = inr md) as [md Hmd]
    by (eexists; vm_compute; reflexivity).
  exists md. split; [exact Hmd|].
  destruct (season_folders_children_of_root Samples.aliases Samples.no_suffix
              Samples.lone_season md Hmd) as (_ & _ & Hseason & _).
  destruct Hseason as [Hrecords _].
  - intros H. vm_compute in H. discriminate H.
  - intros idx sm Hsm.
    destruct (Hrecords idx sm Hsm) as (s & Hs & _ & _ & -> & _). exact Hs.
Defined.

(** C2, as stated, fails.  In [lone_season] the media root is the folder
    "Season"; it has no child folder, so no season-like child, and the
    analysis still treats "Season", a child of the root, as a season folder:
    the season is recorded with that folder as its season root. *)
Lemma season_folders_of_media_root_counterexample :
  TVAnalyzer._find_media_root Samples.aliases Samples.lone_season
  = Samples.lone_season_folder
  ∧ TVAnalyzer._find_season_folders Samples.aliases
      (TVAnalyzer._find_media_root Samples.aliases Samples.lone_season) = []
  ∧ TVAnalyzer._find_season_folders Samples.aliases Samples.lone_season
    = [Samples.lone_season_folder]
  ∧ ∃ md sm,
      outcome (TVAnalyzer.analyze Samples.aliases Samples.no_suffix
                 Samples.lone_season) = inr md
      ∧ md_seasons md !! 1%N = Some sm
      ∧ sm_media_root sm = Samples.lone_season_folder
      ∧ sm_root sm = Samples.lone_season_folder.
Proof.
  split; [reflexivity|]. split; [reflexivity|]. split; [reflexivity|].
  eexists _, _. split; [vm_compute; reflexivity|].
  split; [vm_compute; reflexivity|]. split; reflexivity.
Qed.

(** The media files of season 1 of [show_with_extras] are those found from
    the media root the TV rule gives. *)
Lemma season_media_root_tv_rule_witness :
  ∃ md sm,
    outcome (TVAnalyzer.analyze Samples.aliases Samples.no_suffix
               Samples.show_with_extras) = inr md
    ∧ md_seasons md !! 1%N = Some sm
    ∧ sm_media_files sm
      = GeneralMediaAnalyzer._get_media_files
          (TVAnalyzer._find_media_root Samples.aliases (sm_media_root sm)).
Proof.
  assert (∃ md sm,
            outcome (TVAnalyzer.analyze Samples.aliases Samples.no_suffix
                       Samples.show_with_extras) = inr md
            ∧ md_seasons md !! 1%N = Some sm) as (md & sm & Hmd & Hsm).
  { eexists _, _. split; vm_compute; reflexivity. }
  exists md, sm. split; [exact Hmd|]. split; [exact Hsm|].
  refine (proj1 (proj2 (season_media_root_tv_rule Samples.aliases Samples.no_suffix
                          Samples.show_with_extras md 1%N sm Hmd _ Hsm))).
  intros H. vm_compute in H. discriminate H.
Defined.

(** C3, as stated, fails.  The season folder "Season 1" of
    [show_with_extras] contains a media file itself, so the rule of the movie
    analyzer resolves it to the season folder and to the episode "Show 01".
    The analysis resolves it to the subfolder "Extras", its only qualifying
    child, and records "Show 09" as the media file of the season. *)
Lemma season_media_root_movie_rule_counterexample :
  MovieAnalyzer._find_media_root Samples.season_with_extras
  = inr Samples.season_with_extras
  ∧ GeneralMediaAnalyzer._get_media_files Samples.season_with_extras
    = [Samples.media "Show 01"]
  ∧ TVAnalyzer._find_media_root Samples.aliases Samples.season_with_extras
    = Samples.extras
  ∧ ∃ md sm,
      outcome (TVAnalyzer.analyze Samples.aliases Samples.no_suffix
                 Samples.show_with_extras) = inr md
      ∧ md_seasons md !! 1%N = Some sm
      ∧ sm_media_root sm = Samples.season_with_extras
      ∧ sm_media_files sm = [Samples.media "Show 09"].
Proof.
  split; [reflexivity|]. split; [reflexivity|]. split; [reflexivity|].
  eexists _, _. split; [vm_compute; reflexivity|].
  split; [vm_compute; reflexivity|]. split; reflexivity.
Qed.

(** The episodes of [lone_season] are among its media files. *)
Lemma keys_positive_unless_read_as_zero_witness :
  ∃ md sm,
    outcome (TVAnalyzer.analyze Samples.aliases Samples.no_suffix
               Samples.lone_season) = inr md
    ∧ md_seasons md !! 1%N = Some sm
    ∧ ∀ e f, sm_episode_files sm !! e = Some f → f ∈ sm_media_files sm.
Proof.
  assert (∃ md sm,
            outcome (TVAnalyzer.analyze Samples.aliases Samples.no_suffix
                       Samples.lone_season) = inr md
            ∧ md_seasons md !! 1%N = Some sm) as (md & sm & Hmd & Hsm).
  { eexists _, _. split; vm_compute; reflexivity. }
  exists md, sm. split; [exact Hmd|]. split; [exact Hsm|].
  intros e f He.
  exact (proj1 (proj2 (keys_positive_unless_read_as_zero Samples.aliases
                         Samples.no_suffix Samples.lone_season md 1%N sm Hmd Hsm)
                  e f He)).
Defined.

(** C8, as stated, fails.  The folder "Season 0" is recorded under the
    season index 0, and its file "Show 00" under the episode index 0. *)
Lemma keys_positive_counterexample :
  ∃ md sm,
    outcome (TVAnalyzer.analyze Samples.aliases Samples.no_suffix
               Samples.show_zero) = inr md
    ∧ md_seasons md !! 0%N = Some sm
    ∧ sm_episode_files sm !! 0%N = Some (Samples.media "Show 00").
Proof.
  eexists _, _. split; [vm_compute; reflexivity|].
  split; vm_compute; reflexivity.
Qed.
(** ** Normalization and tokens *)

Section Normalization.
Import Vocabulary Terms.

(** X1.  [replace_special_chars] maps every underscore and every period to
    one space and leaves the other characters alone: the length is kept, no
    underscore or period is left, and normalizing twice changes nothing. *)
Theorem replace_special_chars_pointwise (str : string) :
  chars (replace_special_chars str) = normalize_char <$> chars str
  ∧ String.length (replace_special_chars str) = String.length str
  ∧ (∀ c, c ∈ chars (replace_special_chars str) → c ≠ "_"%char ∧ c ≠ "."%char)
  ∧ replace_special_chars (replace_special_chars str) = replace_special_chars str.
Proof.
  pose proof chars_replace_special_chars as Hmap.
  split; [apply Hmap|]. split; [|split].
  - by rewrite <- !length_chars, Hmap, length_fmap.
  - apply replace_special_chars_clean.
  - apply chars_inj. rewrite !Hmap, <- list_fmap_compose.
    apply list_fmap_ext. intros _ c _. apply normalize_char_idemp.
Qed.

(** Joining what [split] yields gives the string back. *)
Lemma concat_split sep s :
  String.concat (String sep "") (PyStr.split sep s) = s.
Proof.
  induction s as [|c s IH]; [done|]. simpl.
  destruct (split_first_token sep s) as (tok & r & Hs). rewrite Hs in IH |- *.
  destruct (Ascii.eqb c sep) eqn:E.
  - apply Ascii.eqb_eq in E as ->.
    change (String.concat (String sep "") ("" :: tok :: r))
      with ("" +:+ String sep "" +:+ String.concat (String sep "") (tok :: r)).
    by rewrite IH.
  - destruct r as [|tok' r].
    + simpl in *. by rewrite IH.
    + change (String.concat (String sep "") (String c tok :: tok' :: r))
        with (String c tok +:+ String sep ""
              +:+ String.concat (String sep "") (tok' :: r)).
      change (String.concat (String sep "") (tok :: tok' :: r))
        with (tok +:+ String sep "" +:+ String.concat (String sep "") (tok' :: r))
        in IH.
      by rewrite string_app_cons, IH.
Qed.

(** No token contains the separator. *)
Lemma split_tokens_sep_free sep s tok :
  tok ∈ PyStr.split sep s → sep ∉ chars tok.
Proof.
  revert tok. induction s as [|c s IH]; intros tok; simpl.
  - intros ->%list_elem_of_singleton. apply not_elem_of_nil.
  - destruct (Ascii.eqb c sep) eqn:E.
    + intros [->|H]%elem_of_cons; [apply not_elem_of_nil | by apply IH].
    + destruct (PyStr.split sep s) as [|t ts].
      * intros ->%list_elem_of_singleton. simpl.
        apply Ascii.eqb_neq in E.
        intros [->|?%elem_of_nil]%elem_of_cons; done.
      * intros [->|H]%elem_of_cons.
        -- simpl. apply Ascii.eqb_neq in E.
           intros [->|H]%elem_of_cons; [done|]. by apply (IH t); [left|].
        -- apply IH. by right.
Qed.

(** Splitting what was joined from separator-free words gives the words
    back. *)
Lemma split_concat sep w ws :
  (∀ x, x ∈ w :: ws → sep ∉ chars x) →
  PyStr.split sep (String.concat (String sep "") (w :: ws)) = w :: ws.
Proof.
  assert (∀ x rest, sep ∉ chars x →
            PyStr.split sep (x +:+ String sep rest) = x :: PyStr.split sep rest)
    as Hhead.
  { intros x rest. induction x as [|c x IH]; intros Hx.
    - rewrite string_app_nil_l. simpl. by rewrite Ascii.eqb_refl.
    - rewrite string_app_cons. simpl. simpl in Hx.
      apply not_elem_of_cons in Hx as [Hc Hx].
      rewrite (proj2 (Ascii.eqb_neq c sep)) by done. by rewrite (IH Hx). }
  assert (∀ x, sep ∉ chars x → PyStr.split sep x = [x]) as Hlast.
  { intros x. induction x as [|c x IH]; intros Hx; [done|].
    simpl in *. apply not_elem_of_cons in Hx as [Hc Hx].
    rewrite (proj2 (Ascii.eqb_neq c sep)) by done. by rewrite (IH Hx). }
  revert w. induction ws as [|w' ws IH]; intros w Hfree.
  - simpl. apply Hlast, Hfree. left.
  - change (String.concat (String sep "") (w :: w' :: ws))
      with (w +:+ String sep (String.concat (String sep "") (w' :: ws))).
    rewrite Hhead by (apply Hfree; left).
    f_equal. apply IH. intros x Hx. apply Hfree. by right.
Qed.

(** X2.  The tokens of a file, joined with single spaces, are its normalized
    title, and no token contains a space, an underscore or a period. *)
Theorem file_tokens_round_trip (media_file : File) :
  String.concat " " (TVAnalyzer.file_tokens media_file)
  = replace_special_chars (file_title media_file)
  ∧ (∀ tok, tok ∈ TVAnalyzer.file_tokens media_file →
            (" "%char ∉ chars tok) ∧ ("_"%char ∉ chars tok)
            ∧ ("."%char ∉ chars tok))
  ∧ TVAnalyzer.file_tokens media_file ≠ [].
Proof.
  unfold TVAnalyzer.file_tokens. split; [apply concat_split|]. split.
  - intros tok Htok. split; [by eapply split_tokens_sep_free|].
    assert (∀ c, c ∈ chars tok →
                 c ∈ chars (replace_special_chars (file_title media_file))) as Hsub.
    { revert tok Htok.
      induction (replace_special_chars (file_title media_file)) as [|x s IH];
        intros tok; simpl.
      - by intros ->%list_elem_of_singleton.
      - destruct (Ascii.eqb x " ").
        + intros [->|H]%elem_of_cons c Hc; [by apply elem_of_nil in Hc|].
          right. by apply (IH tok).
        + destruct (PyStr.split " " s) as [|t ts] eqn:Es.
          * intros ->%list_elem_of_singleton c Hc. simpl in Hc.
            apply elem_of_cons in Hc as [->|Hc]; [left | by apply elem_of_nil in Hc].
          * intros [->|H]%elem_of_cons c Hc.
            -- simpl in Hc. apply elem_of_cons in Hc as [->|Hc]; [left|].
               right. apply (IH t); [left | done].
            -- right. apply (IH tok); [by right | done]. }
    split; intros Hc; apply Hsub, replace_special_chars_clean in Hc;
      by destruct Hc.
  - destruct (split_first_token " " (replace_special_chars (file_title media_file)))
      as (tok & r & ->). done.
Qed.

End Normalization.

(** ** Numbers and keywords in names *)

Section Numbers.
Import Vocabulary Terms TVAnalyzer.

Lemma span_digits_no_leading s :
  no_leading_digit s = true → PyStr.span_digits s = ("", s).
Proof.
  destruct s as [|c s]; [done|]. simpl.
  by destruct (PyStr.is_digit c).
Qed.

Lemma span_digits_app d b :
  PyStr.all_digits d = true → no_leading_digit b = true →
  PyStr.span_digits (d +:+ b) = (d, b).
Proof.
  intros Hd Hb. induction d as [|c d IH].
  - rewrite string_app_nil_l. by apply span_digits_no_leading.
  - simpl in Hd. apply andb_true_iff in Hd as [Hc Hd].
    rewrite string_app_cons. simpl. by rewrite Hc, (IH Hd).
Qed.

Lemma digit_runs_from_skip a s :
  digit_free a = true →
  PyStr.digit_runs_from "" (a +:+ s) = PyStr.digit_runs_from "" s.
Proof.
  induction a as [|c a IH]; [done|]. cbn [digit_free].
  intros [Hc Ha]%andb_true_iff. rewrite string_app_cons.
  cbn [PyStr.digit_runs_from]. apply negb_true_iff in Hc. rewrite Hc.
  by apply IH.
Qed.

Lemma digit_runs_from_take cur d b :
  PyStr.all_digits d = true →
  PyStr.digit_runs_from cur (d +:+ b) = PyStr.digit_runs_from (cur +:+ d) b.
Proof.
  revert cur. induction d as [|c d IH]; intros cur Hd.
  - by rewrite string_app_nil_l, string_app_nil_r.
  - simpl in Hd. apply andb_true_iff in Hd as [Hc Hd].
    rewrite string_app_cons. simpl. rewrite Hc, (IH _ Hd).
    by rewrite string_app_assoc.
Qed.

Lemma digit_runs_from_stop cur b :
  cur ≠ "" → no_leading_digit b = true →
  head (PyStr.digit_runs_from cur b) = Some cur.
Proof.
  intros Hcur Hb.
  assert (String.eqb cur "" = false) as E by (by apply String.eqb_neq).
  destruct b as [|c b]; simpl; [by rewrite E|].
  simpl in Hb. apply negb_true_iff in Hb. by rewrite Hb, E.
Qed.

Lemma digit_runs_from_digit_free s :
  digit_free s = true → PyStr.digit_runs_from "" s = [].
Proof.
  induction s as [|c s IH]; [done|]. simpl.
  intros [Hc Hs]%andb_true_iff. apply negb_true_iff in Hc. rewrite Hc. by apply IH.
Qed.

Lemma digit_runs_from_nil cur s :
  PyStr.digit_runs_from cur s = [] → cur = "" ∧ digit_free s = true.
Proof.
  revert cur. induction s as [|c s IH]; intros cur; simpl.
  - destruct (String.eqb cur "") eqn:E; [|done]. by apply String.eqb_eq in E.
  - destruct (PyStr.is_digit c) eqn:Hc.
    + intros [Hcur _]%IH. destruct cur; done.
    + destruct (String.eqb cur "") eqn:E; [|done].
      apply String.eqb_eq in E. intros [_ Hs]%IH. by rewrite Hs.
Qed.

Lemma extract_number_run a d b :
  digit_free a = true → PyStr.isnumeric d = true → no_leading_digit b = true →
  _extract_number_from_string (a +:+ d +:+ b) = Some (PyStr.int d).
Proof.
  intros Ha Hd Hb. rewrite extract_number_from_string_first.
  unfold PyStr.finditer_digits.
  assert (PyStr.all_digits d = true ∧ d ≠ "") as [Hall Hne] by (by destruct d).
  rewrite digit_runs_from_skip, digit_runs_from_take, string_app_nil_l by done.
  by rewrite digit_runs_from_stop.
Qed.

Lemma extract_number_none str :
  _extract_number_from_string str = None ↔ digit_free str = true.
Proof.
  rewrite extract_number_from_string_first.
  unfold PyStr.finditer_digits. split.
  - destruct (PyStr.digit_runs_from "" str) eqn:E; [|done].
    intros _. by apply digit_runs_from_nil in E as [_ ?].
  - intros H. by rewrite digit_runs_from_digit_free.
Qed.

(** X3.  [_extract_number_from_string] reads the first maximal run of
    digits and ignores what follows it; it yields nothing exactly when the
    string has no digit. *)
Theorem extract_number_first_run :
  (∀ a d b, digit_free a = true → PyStr.isnumeric d = true →
            no_leading_digit b = true →
            _extract_number_from_string (a +:+ d +:+ b) = Some (PyStr.int d))
  ∧ (∀ str, _extract_number_from_string str = None ↔ digit_free str = true).
Proof. split; [apply extract_number_run | apply extract_number_none]. Qed.

Lemma lower_app a b : PyStr.lower (a +:+ b) = PyStr.lower a +:+ PyStr.lower b.
Proof.
  induction a as [|c a IH]; [done|].
  rewrite string_app_cons. simpl. by rewrite IH, string_app_cons.
Qed.

Lemma lower_char_idemp c : PyStr.lower_char (PyStr.lower_char c) = PyStr.lower_char c.
Proof.
  destruct c as [b0 b1 b2 b3 b4 b5 b6 b7].
  destruct b0, b1, b2, b3, b4, b5, b6, b7; reflexivity.
Qed.

Lemma lower_idemp s : PyStr.lower (PyStr.lower s) = PyStr.lower s.
Proof.
  induction s as [|c s IH]; [done|]. simpl. by rewrite lower_char_idemp, IH.
Qed.

Lemma contains_app x a b : PyStr.contains x (a +:+ x +:+ b) = true.
Proof.
  induction a as [|c a IH].
  - rewrite string_app_nil_l.
    assert (∀ s, String.prefix x s = true → PyStr.contains x s = true) as Hp.
    { intros s Hs. destruct s; cbn [PyStr.contains]; by rewrite Hs. }
    apply Hp, prefix_app.
  - rewrite string_app_cons. cbn [PyStr.contains]. rewrite IH. apply orb_true_r.
Qed.

Section WithAliases.
Variable SEASON_ALIASES : list string.

(** X4.  [contains_season_keyword] does not depend on the letter case of
    the title, and it finds an alias wherever it stands in the title and in
    whatever case it is written; without aliases nothing is a season
    folder. *)
Theorem contains_season_keyword_case_insensitive (str : string) :
  contains_season_keyword SEASON_ALIASES (PyStr.lower str)
  = contains_season_keyword SEASON_ALIASES str
  ∧ (∀ alias a x b, alias ∈ SEASON_ALIASES → PyStr.lower x = alias →
                    contains_season_keyword SEASON_ALIASES (a +:+ x +:+ b) = true)
  ∧ contains_season_keyword [] str = false.
Proof.
  split; [|split; [|done]].
  - unfold contains_season_keyword. by rewrite lower_idemp.
  - intros alias a x b Hin Hx. unfold contains_season_keyword.
    apply existsb_exists. exists alias. split; [by apply list_elem_of_In|].
    by rewrite !lower_app, Hx, contains_app.
Qed.

End WithAliases.

(** *** The episode index of a token *)

Lemma all_digits_not_free c d :
  PyStr.all_digits (String c d) = true → digit_free (String c d) = false.
Proof. simpl. intros [-> _]%andb_true_iff. done. Qed.

Lemma finditer_SE_from_short k s :
  String.length s ≤ k → PyStr.finditer_SE_from k s = [].
Proof.
  revert k. induction s as [|c s IH]; intros k Hk; [done|].
  simpl in Hk. destruct k as [|k]; [lia|]. simpl. apply IH. lia.
Qed.

Lemma string_length_app a b :
  String.length (a +:+ b) = String.length a + String.length b.
Proof.
  induction a as [|c a IH]; [done|]. rewrite string_app_cons. simpl. by rewrite IH.
Qed.

(** The matches of [S[0-9]+E[0-9]+] in the token [S<d1>E<d2>]. *)
Lemma finditer_SE_token d1 d2 :
  PyStr.isnumeric d1 = true → PyStr.isnumeric d2 = true →
  PyStr.finditer_SE ("S" +:+ d1 +:+ "E" +:+ d2) = ["S" +:+ d1 +:+ "E" +:+ d2].
Proof.
  intros H1 H2.
  assert (PyStr.all_digits d1 = true ∧ String.eqb d1 "" = false) as [Ha1 Hn1]
    by (by destruct d1).
  assert (PyStr.all_digits d2 = true ∧ String.eqb d2 "" = false) as [Ha2 Hn2]
    by (by destruct d2).
  assert (PyStr.match_SE ("S" +:+ d1 +:+ "E" +:+ d2)
          = Some ("S" +:+ d1 +:+ "E" +:+ d2)) as Hm.
  { change ("S" +:+ d1 +:+ "E" +:+ d2) with (String "S" (d1 +:+ String "E" d2)).
    unfold PyStr.match_SE. rewrite Ascii.eqb_refl.
    rewrite (span_digits_app d1 (String "E" d2)) by done.
    rewrite Hn1, Ascii.eqb_refl.
    replace d2 with (d2 +:+ "") at 1 by apply string_app_nil_r.
    rewrite (span_digits_app d2 "") by done. by rewrite Hn2. }
  unfold PyStr.finditer_SE.
  change ("S" +:+ d1 +:+ "E" +:+ d2) with (String "S" (d1 +:+ String "E" d2)) in *.
  cbn [PyStr.finditer_SE_from]. rewrite Hm. f_equal.
  apply finditer_SE_from_short. simpl. lia.
Qed.

Lemma finditer_SE_from_digit_free k s :
  digit_free s = true → PyStr.finditer_SE_from k s = [].
Proof.
  revert k. induction s as [|c s IH]; intros k; [done|].
  simpl digit_free. intros [Hc Hs]%andb_true_iff.
  cbn [PyStr.finditer_SE_from]. destruct k as [|k]; [|by apply IH].
  assert (PyStr.match_SE (String c s) = None) as ->; [|by apply IH].
  unfold PyStr.match_SE. destruct (Ascii.eqb c "S"); [|done].
  rewrite span_digits_no_leading; [done|].
  destruct s as [|x s]; [done|]. simpl in *.
  by apply andb_true_iff in Hs as [-> _].
Qed.

(** X5.  The episode index of a token [S<d1>E<d2>] is the number after [E]
    when that number is not 0; when it is 0 the token reads as the number
    after [S], and when both are 0 no index is found. *)
Theorem index_of_season_episode_token (d1 d2 : string) :
  PyStr.isnumeric d1 = true → PyStr.isnumeric d2 = true →
  index_of_token ("S" +:+ d1 +:+ "E" +:+ d2)
  = if N.eqb (PyStr.int d2) 0
    then if N.eqb (PyStr.int d1) 0 then inl EpisodeIndexNotFoundException
         else inr (PyStr.int d1)
    else inr (PyStr.int d2).
Proof.
  intros H1 H2.
  assert (PyStr.all_digits d1 = true ∧ d1 ≠ "") as [Ha1 Hn1] by (by destruct d1).
  assert (PyStr.all_digits d2 = true ∧ d2 ≠ "") as [Ha2 Hn2] by (by destruct d2).
  assert (PyStr.isnumeric ("S" +:+ d1 +:+ "E" +:+ d2) = false) as Hnum by done.
  assert (_extract_episode_index_from_normalized_form ("S" +:+ d1 +:+ "E" +:+ d2)
          = Some (PyStr.int d2)) as Hse.
  { destruct (extract_episode_index_from_normalized_form_first
                ("S" +:+ d1 +:+ "E" +:+ d2)) as [-> _].
    rewrite finditer_SE_token by done.
    change ("S" +:+ d1 +:+ "E" +:+ d2) with (String "S" (d1 +:+ String "E" d2)).
    cbn [PyStr.split]. change (Ascii.eqb "S" "E") with false. cbn match.
    by rewrite split_E_digits_app, split_E_digits. }
  assert (_extract_number_from_string ("S" +:+ d1 +:+ "E" +:+ d2)
          = Some (PyStr.int d1)) as Hn.
  { apply (extract_number_run "S" d1 (String "E" d2)); done. }
  unfold index_of_token. rewrite Hnum, Hse, Hn. unfold truthy.
  by destruct (N.eqb (PyStr.int d2) 0), (N.eqb (PyStr.int d1) 0).
Qed.

(** X6.  For an ASCII token, on which the numeric test is embedded exactly:
    a token without any digit has no episode index; and whenever no index is
    found for a token, the exception is [EpisodeIndexNotFoundException] and
    the token has no digit or its first run of digits reads 0. *)
Theorem index_of_token_not_found (str_index : string) :
  isascii str_index = true →
  (digit_free str_index = true →
   index_of_token str_index = inl EpisodeIndexNotFoundException)
  ∧ (∀ e, index_of_token str_index = inl e →
          e = EpisodeIndexNotFoundException
          ∧ PyStr.isnumeric str_index = false
          ∧ (digit_free str_index = true
             ∨ _extract_number_from_string str_index = Some 0%N)).
Proof.
  intros _. split.
  - intros Hfree. unfold index_of_token.
    assert (PyStr.isnumeric str_index = false) as ->.
    { destruct str_index as [|c s]; [done|]. simpl in *.
      apply andb_true_iff in Hfree as [Hc _]. apply negb_true_iff in Hc.
      by rewrite Hc. }
    unfold _extract_episode_index_from_normalized_form, PyStr.finditer_SE.
    rewrite finditer_SE_from_digit_free by done. cbn.
    by rewrite (proj2 (extract_number_none str_index) Hfree).
  - intros e. unfold index_of_token.
    destruct (PyStr.isnumeric str_index); [done|].
    destruct (truthy (_extract_episode_index_from_normalized_form str_index));
      [done|].
    destruct (_extract_number_from_string str_index) as [n|] eqn:En.
    + simpl. destruct (N.eqb n 0) eqn:E0; [|done].
      apply N.eqb_eq in E0 as ->. intros [= <-]. auto.
    + simpl. intros [= <-]. split; [done|]. split; [done|]. left.
      by apply extract_number_none.
Qed.

End Numbers.

(** The number of "Season 02 part 3" is 2. *)
Lemma extract_number_first_run_witness :
  _extract_number_from_string "Season 02 part 3" = Some 2%N.
Proof.
  exact (proj1 extract_number_first_run "Season " "02" " part 3"
           eq_refl eq_refl eq_refl).
Defined.

(** The index of "S02E05" is 5. *)
Lemma index_of_season_episode_token_witness :
  TVAnalyzer.index_of_token "S02E05" = inr 5%N.
Proof. exact (index_of_season_episode_token "02" "05" eq_refl eq_refl). Defined.

(** "SEASON" in capitals is found with the alias "season". *)
Lemma contains_season_keyword_case_insensitive_witness :
  contains_season_keyword Samples.aliases "My SEASON two" = true.
Proof.
  refine (proj1 (proj2 (contains_season_keyword_case_insensitive
                          Samples.aliases "My SEASON two"))
            "season" "My " "SEASON" " two" _ eq_refl).
  left.
Defined.

(** "Extras" has no digit. *)
Lemma index_of_token_not_found_witness :
  TVAnalyzer.index_of_token "Extras" = inl EpisodeIndexNotFoundException.
Proof. exact (proj1 (index_of_token_not_found "Extras" eq_refl) eq_refl). Defined.

(** ** Media files and subtitles of a folder *)

Section MediaFiles.
Import Vocabulary Terms GeneralMediaAnalyzer.

(** The function as the source has it: the direct media files, and the
    media files of the subfolders only when there is none. *)
Lemma get_media_files_unfold root :
  _get_media_files root
  = match direct_media root with
    | [] => concat (_get_media_files <$> get_folders root)
    | _ :: _ => direct_media root
    end.
Proof.
  destruct root as [t p ss]. unfold direct_media, get_files, get_folders.
  cbn [get_structs _get_media_files].
  destruct (List.filter is_media (files_of ss)); [|done].
  induction ss as [|[f|c] r IH]; csimpl; [done | done | by rewrite IH].
Qed.

Lemma elem_of_concat {A} (x : A) (ls : list (list A)) :
  x ∈ concat ls ↔ ∃ l, x ∈ l ∧ l ∈ ls.
Proof.
  induction ls as [|l ls IH]; simpl.
  - split; [by intros ?%elem_of_nil | by intros (l & _ & ?%elem_of_nil)].
  - rewrite elem_of_app, IH. split.
    + intros [H|(l' & H & Hl')]; [exists l | exists l'].
      * split; [done | left].
      * split; [done | by right].
    + intros (l' & H & [->|Hl']%elem_of_cons); [by left | right; eauto].
Qed.

Lemma elem_of_direct_media folder f :
  f ∈ direct_media folder ↔ f ∈ get_files folder ∧ is_media f = true.
Proof. apply elem_of_bool_filter. Qed.

(** X7.  [_get_media_files] returns media files of the subtree only; the
    direct media files of the folder when it has some, without looking into
    its subfolders; and nothing exactly when the subtree holds no media
    file. *)
Theorem get_media_files_subtree (root : Folder) :
  (∀ f, f ∈ _get_media_files root →
        is_media f = true ∧ f ∈ subtree_files root)
  ∧ (direct_media root ≠ [] → _get_media_files root = direct_media root)
  ∧ (_get_media_files root = []
     ↔ ∀ f, f ∈ subtree_files root → is_media f = false).
Proof.
  induction root as [t p ss IH] using Folder_children_ind.
  set (root := mkFolder t p ss) in *.
  assert (get_folders root = folders_of ss) as Hfolders by done.
  rewrite Forall_forall in IH.
  rewrite get_media_files_unfold. split; [|split].
  - intros f. destruct (direct_media root) as [|g l] eqn:E.
    + intros (fs & Hfs & (c & -> & Hc)%list_elem_of_fmap)%elem_of_concat.
      rewrite Hfolders in Hc. destruct (IH c Hc) as (Hmedia & _ & _).
      destruct (Hmedia f Hfs). split; [done|].
      by apply (get_folders_subtree root c).
    + rewrite <- E. intros [Hf Hm]%elem_of_direct_media.
      split; [done | by apply get_files_subtree].
  - by destruct (direct_media root).
  - destruct (direct_media root) as [|g l] eqn:E.
    + split.
      * intros Hnil f [Hf|(c & Hc & Hf)]%elem_of_subtree_files.
        -- destruct (is_media f) eqn:Hm; [|done].
           assert (f ∈ direct_media root) as Hin
             by (apply elem_of_direct_media; done).
           rewrite E in Hin. by apply elem_of_nil in Hin.
        -- destruct (IH c Hc) as (_ & _ & Hempty). apply Hempty; [|done].
           destruct (_get_media_files c) as [|x xs] eqn:Ec; [done|].
           assert (x ∈ concat (_get_media_files <$> get_folders root)) as Hx.
           { apply elem_of_concat. exists (x :: xs). split; [left|].
             apply list_elem_of_fmap. exists c. by rewrite Hfolders. }
           rewrite Hnil in Hx. by apply elem_of_nil in Hx.
      * intros Hnone.
        destruct (concat (_get_media_files <$> get_folders root))
          as [|x xs] eqn:Ec; [done|].
        assert (x ∈ concat (_get_media_files <$> get_folders root)) as Hx
          by (rewrite Ec; left).
        apply elem_of_concat in Hx
          as (fs & Hfs & (c & -> & Hc)%list_elem_of_fmap).
        rewrite Hfolders in Hc. destruct (IH c Hc) as (Hmedia & _ & _).
        destruct (Hmedia x Hfs) as [Hm Hsub].
        rewrite (Hnone x) in Hm; [done|].
        apply elem_of_subtree_files. right. eauto.
    + split; [done|]. intros Hnone.
      assert (g ∈ direct_media root) as [Hg Hm]%elem_of_direct_media
        by (rewrite E; left).
      rewrite (Hnone g) in Hm; [done|]. by apply get_files_subtree.
Qed.

(** *** Subtitles *)

Lemma get_subtitle_file_value folder :
  _get_subtitle_file folder
  = (match direct_subtitles folder with
     | [] => [LogWarning ("Subtitle must exists in "
                            +:+ get_absolute_path folder +:+ ", but not found.")]
     | _ :: _ => []
     end, inr (direct_subtitles folder)).
Proof.
  unfold _get_subtitle_file, direct_subtitles.
  by destruct (List.filter is_subtitle (get_files folder)).
Qed.

Lemma direct_subtitles_in_subtree folder :
  direct_subtitles folder ≠ [] → subtitle_in_subtree folder.
Proof.
  destruct (direct_subtitles folder) as [|f l] eqn:E; [done|]. intros _.
  assert (f ∈ direct_subtitles folder) as [Hf Hs]%elem_of_bool_filter
    by (rewrite E; left).
  exists f. split; [by apply get_files_subtree | done].
Qed.

Lemma first_subtitle_folder_none ss :
  (∀ c, c ∈ folders_of ss → contains_subtitle_file c = false) →
  first_subtitle_folder ss = None.
Proof.
  induction ss as [|[f|c] r IH]; simpl; intros Hnone; [done | auto |].
  rewrite (Hnone c) by left. apply IH. intros c' Hc'. apply Hnone. by right.
Qed.

Lemma analyze_subtitles_direct root :
  outcome (_analyze_subtitles root) = inr (direct_subtitles root).
Proof.
  unfold _analyze_subtitles.
  destruct (contains_subtitle_file root) eqn:Hq.
  - by rewrite get_subtitle_file_value.
  - apply contains_subtitle_file_false in Hq.
    assert (direct_subtitles root = []) as Hnil.
    { destruct (direct_subtitles root) eqn:E; [done|].
      destruct Hq. apply direct_subtitles_in_subtree. by rewrite E. }
    rewrite first_subtitle_folder_none; [by rewrite Hnil|].
    intros c Hc. apply contains_subtitle_file_false.
    intros (f & Hf & Hs). apply Hq. exists f. split; [|done].
    by apply (get_folders_subtree root c).
Qed.

(** X8.  With the recursive containment query of the tree provider,
    [_analyze_subtitles] returns exactly the subtitle and archived-subtitle
    files among the direct files of the folder it is given, in their order:
    a subtitle that lies in a subfolder is never returned.  It logs one
    diagnostic when it returns nothing and none otherwise. *)
Theorem analyze_subtitles_direct_only (root : Folder) :
  outcome (_analyze_subtitles root) = inr (direct_subtitles root)
  ∧ (direct_subtitles root = [] → length (diagnostics (_analyze_subtitles root)) = 1)
  ∧ (direct_subtitles root ≠ [] → diagnostics (_analyze_subtitles root) = []).
Proof.
  split; [apply analyze_subtitles_direct|].
  unfold _analyze_subtitles.
  destruct (contains_subtitle_file root) eqn:Hq.
  - rewrite get_subtitle_file_value. by destruct (direct_subtitles root).
  - destruct (first_subtitle_folder (get_structs root)) as [elem|] eqn:E.
    + apply contains_subtitle_file_false in Hq. destruct Hq.
      assert (contains_subtitle_file elem = true) as Helem.
      { clear -E. induction (get_structs root) as [|[f|c] r IH]; simpl in E;
          [done | auto |].
        destruct (contains_subtitle_file c) eqn:Hc; [by injection E as <- | auto]. }
      apply contains_subtitle_file_spec in Helem as (f & Hf & Hs).
      exists f. split; [|done].
      apply (get_folders_subtree root elem); [|done].
      by apply first_subtitle_folder_elem.
    + split; [done|]. intros Hne.
      apply contains_subtitle_file_false in Hq. destruct Hq.
      by apply direct_subtitles_in_subtree.
Qed.

End MediaFiles.

(** ** The movie analyzer *)

Section Movie.
Import Vocabulary Terms MovieAnalyzer.

Lemma has_media_direct folder : has_media folder = true ↔ direct_media folder ≠ [].
Proof.
  unfold has_media, get_number_of_files_by_type, direct_media.
  rewrite Nat.ltb_lt.
  assert (∀ l : list File,
            length (filter (λ f, FileType_eqb (get_file_type f) MEDIA = true) l)
            = length (List.filter GeneralMediaAnalyzer.is_media l)) as Hlen.
  { induction l as [|f l IH]; [done|].
    rewrite filter_cons. cbn [List.filter].
    unfold GeneralMediaAnalyzer.is_media at 1.
    destruct (FileType_eqb (get_file_type f) MEDIA) eqn:E.
    - rewrite decide_True by done. simpl. by rewrite IH.
    - rewrite decide_False by done. done. }
  rewrite Hlen.
  destruct (List.filter GeneralMediaAnalyzer.is_media (get_files folder));
    simpl; split; (done || lia).
Qed.

Lemma first_with_media_inr folders d :
  first_with_media folders = inr d →
  ∃ l1 l2, folders = l1 ++ d :: l2 ∧ has_media d = true
           ∧ ∀ c, c ∈ l1 → has_media c = false.
Proof.
  induction folders as [|c r IH]; simpl; [done|].
  destruct (has_media c) eqn:E.
  - intros [= <-]. exists [], r. split; [done|]. split; [done|].
    by intros ? ?%elem_of_nil.
  - intros (l1 & l2 & -> & Hd & Hl1)%IH. exists (c :: l1), l2.
    split; [done|]. split; [done|].
    intros c' [->|Hc']%elem_of_cons; auto.
Qed.

Lemma first_with_media_inl folders e :
  first_with_media folders = inl e →
  e = MediaRootNotFoundException ∧ ∀ c, c ∈ folders → has_media c = false.
Proof.
  induction folders as [|c r IH]; simpl.
  - intros [= <-]. split; [done|]. by intros ? ?%elem_of_nil.
  - destruct (has_media c) eqn:E; [done|]. intros [-> Hr]%IH.
    split; [done|]. intros c' [->|Hc']%elem_of_cons; auto.
Qed.

(** X9.  The media root of the movie analyzer is the folder itself when it
    directly contains a media file, and otherwise the first immediate
    subfolder that does; [MediaRootNotFoundException] is raised exactly when
    neither the folder nor any immediate subfolder directly contains a media
    file, whatever lies deeper. *)
Theorem movie_find_media_root_first (root : Folder) :
  (has_media root = true → _find_media_root root = inr root)
  ∧ (∀ d, _find_media_root root = inr d →
          has_media d = true
          ∧ (d = root
             ∨ (has_media root = false
                ∧ ∃ l1 l2, get_folders root = l1 ++ d :: l2
                           ∧ ∀ c, c ∈ l1 → has_media c = false)))
  ∧ (∀ e, _find_media_root root = inl e ↔
          e = MediaRootNotFoundException ∧ has_media root = false
          ∧ ∀ c, c ∈ get_folders root → has_media c = false).
Proof.
  unfold _find_media_root. split; [by intros ->|]. split.
  - intros d. destruct (has_media root) eqn:E.
    + intros [= <-]. auto.
    + intros (l1 & l2 & Hf & Hd & Hl1)%first_with_media_inr.
      split; [done|]. right. split; [done|]. eauto.
  - intros e. destruct (has_media root) eqn:E.
    + split; [done | by intros (_ & ? & _)].
    + split.
      * intros [-> Hnone]%first_with_media_inl. done.
      * intros (-> & _ & Hnone).
        destruct (first_with_media (get_folders root)) as [e|d] eqn:Ef.
        -- by apply first_with_media_inl in Ef as [-> _].
        -- apply first_with_media_inr in Ef as (l1 & l2 & Hf & Hd & _).
           rewrite Hnone in Hd; [done|]. rewrite Hf.
           apply elem_of_app. right. left.
Qed.

Lemma movie_find_media_root_has_media root media_root :
  _find_media_root root = inr media_root → has_media media_root = true.
Proof.
  unfold _find_media_root. destruct (has_media root) eqn:E.
  - by intros [= <-].
  - by intros (l1 & l2 & _ & Hd & _)%first_with_media_inr.
Qed.

(** X10.  The movie analysis fails exactly when no media root is found, and
    then with [MediaRootNotFoundException] and before any diagnostic.  When
    it returns, the media files of the metadata are the direct media files
    of the media root and there is at least one, the subtitles are the
    direct subtitles of the analysed folder, the title is the title of the
    analysed folder and the original title is the title of the media root. *)
Theorem movie_analyze_result (root : Folder) :
  (∀ e, _find_media_root root = inl e → analyze root = ([], inl e))
  ∧ (∀ media_root, _find_media_root root = inr media_root →
       outcome (analyze root)
       = inr (mkMovieMetadata (get_title root) (get_title media_root) root
                media_root MOVIE (direct_media media_root) (direct_subtitles root))
       ∧ direct_media media_root ≠ []
       ∧ diagnostics (analyze root)
         = diagnostics (GeneralMediaAnalyzer._analyze_subtitles root)).
Proof.
  split.
  - intros e He. unfold analyze, _analyze, GeneralMediaAnalyzer._analyze.
    by rewrite He.
  - intros media_root Hroot.
    assert (direct_media media_root ≠ []) as Hmedia.
    { by apply has_media_direct, (movie_find_media_root_has_media root). }
    pose proof (analyze_subtitles_direct root) as Hsub.
    destruct (GeneralMediaAnalyzer._analyze_subtitles root) as [l r] eqn:Es.
    simpl in Hsub. subst r.
    unfold analyze, _analyze, GeneralMediaAnalyzer._analyze.
    rewrite Hroot, Es. cbn.
    rewrite get_media_files_unfold.
    destruct (direct_media media_root) eqn:E; [done|].
    by rewrite !app_nil_r.
Qed.

End Movie.

(** ** The archive search, once more *)

Section ArchiveResult.
Import Vocabulary GeneralSubtitleExtractor.

(** X11.  With the recursive containment query of the tree provider, the
    archive search never returns a proper subfolder: it returns the folder
    it is given when a subtitle file lies in its subtree, and raises
    [NoSubtitleFileException] otherwise. *)
Theorem archive_search_returns_root_only (root : Folder) :
  (∀ d, _find_subtitle_containing_folder root = inr d →
        d = root ∧ subtitle_in_subtree root)
  ∧ ((∃ msg, _find_subtitle_containing_folder root
             = inl (NoSubtitleFileException msg))
     ↔ ¬ subtitle_in_subtree root).
Proof.
  assert (∀ d, ¬ subtitle_in_subtree d →
               ∃ msg, _find_subtitle_containing_folder d
                      = inl (NoSubtitleFileException msg)) as Hraise.
  { intros d. induction d as [t p ss IH] using Folder_children_ind.
    intros Hnone. rewrite find_subtitle_containing_folder_unfold.
    rewrite (proj2 (contains_subtitle_file_false _) Hnone).
    destruct (get_folders (mkFolder t p ss)) as [|c rest] eqn:Hf; [eauto|].
    unfold get_folders, get_structs in Hf. rewrite Hf in IH.
    apply Forall_cons in IH as [IHc _]. apply IHc.
    intros (f & Hin & Hs). apply Hnone. exists f. split; [|done].
    apply elem_of_subtree_files. right. exists c. rewrite Hf. split; [left|done]. }
  split.
  - intros d. destruct (decide (contains_subtitle_file root = true)) as [Hq|Hq].
    + rewrite find_subtitle_containing_folder_unfold, Hq. intros [= <-].
      split; [done | by apply contains_subtitle_file_spec].
    + apply not_true_is_false, contains_subtitle_file_false in Hq.
      destruct (Hraise root Hq) as [msg ->]. done.
  - split; [|apply Hraise].
    intros [msg Hmsg] Hsub%contains_subtitle_file_spec.
    by rewrite find_subtitle_containing_folder_unfold, Hsub in Hmsg.
Qed.

End ArchiveResult.

(** ** The frequency table and the prefix, once more *)

Section Table.
Import Vocabulary Terms TVAnalyzer.

(** X12.  When every token of every file occurs at its position in more than
    one file (in particular for an empty list, and for files that all have
    the same tokens), no entry of the table stops the scan: prefix discovery
    returns the empty string and logs its warning, whatever the files share. *)
Theorem prefix_discovery_all_shared (files : list File) :
  (∀ f i w, f ∈ files → file_tokens f !! i = Some w →
            1 < token_occurrences files i w) →
  _get_file_name_prefix files
  = ([LogWarning "Failed to found file prefix from file name"], inr "").
Proof.
  intros Hshared. unfold _get_file_name_prefix.
  rewrite prefix_token_last_index_from_none; [done|].
  apply Forall_forall. intros t Ht.
  pose proof (table_of_foldl (stream files)) as (_ & Hmem & Hcnt).
  rewrite <- saved_tokens_of_stream in Hmem, Hcnt.
  assert (token_key t ∈ stream files) as Hk.
  { apply Hmem. apply list_elem_of_fmap. eauto. }
  rewrite (Hcnt t Ht). unfold token_key in *. rewrite occurrences_stream.
  apply elem_of_stream in Hk as (f & Hf & Hw). by apply (Hshared f).
Qed.

Lemma total_count_upd s k : total_count (upd s k) = S (total_count s).
Proof.
  unfold upd, total_count. induction s as [|t r IH]; csimpl; [done|].
  destruct (Token_eqb t (token_of k)); csimpl; [done|]. rewrite IH. lia.
Qed.

Lemma total_count_foldl l s :
  total_count (foldl upd s l) = total_count s + length l.
Proof.
  revert s. induction l as [|k l IH]; intros s; csimpl; [lia|].
  rewrite IH, total_count_upd. lia.
Qed.

Lemma length_indexed_from idx toks : length (indexed_from idx toks) = length toks.
Proof. revert idx. induction toks as [|w r IH]; intros idx; csimpl; [done | by rewrite IH]. Qed.

Lemma length_stream files : length (stream files) = total_tokens files.
Proof.
  unfold total_tokens. induction files as [|f r IH]; [done|].
  rewrite stream_cons, length_app, length_indexed_from, IH. done.
Qed.

Lemma length_le_total_count s :
  Forall (λ t, 1 ≤ get_count t) s → length s ≤ total_count s.
Proof.
  unfold total_count. induction 1 as [|t r Ht _ IH]; [done|].
  rewrite fmap_cons. simpl. lia.
Qed.

(** X13.  The frequency table loses no token: its counts add up to the
    number of tokens of all files, and it never has more entries than that. *)
Theorem saved_tokens_total_count (files : list File) :
  total_count (saved_tokens_of files) = total_tokens files
  ∧ length (saved_tokens_of files) ≤ total_tokens files.
Proof.
  assert (total_count (saved_tokens_of files) = total_tokens files) as Htotal.
  { rewrite saved_tokens_of_stream, total_count_foldl, length_stream. done. }
  split; [done|]. rewrite <- Htotal.
  pose proof (table_of_foldl (stream files)) as (_ & Hmem & Hcnt).
  rewrite <- saved_tokens_of_stream in Hmem, Hcnt.
  assert (Forall (λ t, 1 ≤ get_count t) (saved_tokens_of files)) as Hpos.
  { apply Forall_forall. intros t Ht. rewrite (Hcnt t Ht).
    assert (token_key t ∈ stream files) as Hk
      by (apply Hmem, list_elem_of_fmap; eauto).
    unfold occurrences.
    destruct (filter (λ x, x = token_key t) (stream files)) as [|x l] eqn:E;
      [|simpl; lia].
    assert (token_key t ∈ filter (λ x, x = token_key t) (stream files)) as Hin
      by (by apply list_elem_of_filter).
    rewrite E in Hin. by apply elem_of_nil in Hin. }
  by apply length_le_total_count.
Qed.

End Table.

(** ** The episode map, once more *)

Section EpisodeMap.
Import Vocabulary Terms TVAnalyzer.
Variable trunc_suffix_from_file_name : string → string.

Local Abbreviation extract :=
  (_extract_episode_index_from_file_name trunc_suffix_from_file_name).
Local Abbreviation step := (episode_step trunc_suffix_from_file_name).
Local Abbreviation loop := (episode_loop trunc_suffix_from_file_name).

(** One iteration either maps the file or diverts it with one info. *)
Lemma episode_step_cases p st f :
  (∃ n, extract (file_title f) p = inr n ∧ episodes st !! n = None
        ∧ step p st f
          = ([], inr (mkEpisodeState (<[n := f]> (episodes st))
                        (episode_index_not_found_files st))))
  ∨ (∃ msg, step p st f
            = ([LogInfo msg],
               inr (mkEpisodeState (episodes st)
                      (episode_index_not_found_files st ++ [f])))).
Proof.
  destruct (extract (file_title f) p) as [e|n] eqn:E.
  - right. rewrite (extract_raises _ _ _ _ E) in E.
    rewrite (episode_step_not_found _ _ _ _ E). eauto.
  - destruct (episodes st !! n) as [g|] eqn:G.
    + right. rewrite (episode_step_duplicate _ _ _ _ _ _ E G). eauto.
    + left. exists n. by rewrite (episode_step_fresh _ _ _ _ _ E G).
Qed.

Lemma episode_loop_partition p files st l st' :
  loop p st files = (l, inr st') →
  size (episodes st') + length (episode_index_not_found_files st')
  = size (episodes st) + length (episode_index_not_found_files st) + length files
  ∧ length (infos l) + length (episode_index_not_found_files st)
    = length (episode_index_not_found_files st')
  ∧ infos l = l
  ∧ (∃ diverted, episode_index_not_found_files st'
                 = episode_index_not_found_files st ++ diverted
                 ∧ sublist diverted files)
  ∧ ∀ f, f ∈ files →
         f ∈ episode_index_not_found_files st'
         ∨ ∃ n, episodes st' !! n = Some f.
Proof.
  revert st l. induction files as [|f r IH]; intros st l; simpl.
  - intros [= <- <-]. split; [lia|]. split; [done|]. split; [done|].
    split; [exists []; by rewrite app_nil_r|]. by intros ? ?%elem_of_nil.
  - intros (la & sa & lb & Ha & Hb & ->)%bind_inv_inr.
    destruct (IH _ _ Hb) as (Hsize & Hlog & Hinfo & (div & Hdiv & Hsub) & Hmem).
    destruct (episode_loop_mono _ _ _ _ _ _ Hb) as [Hmono1 Hmono2].
    unfold infos in *. rewrite List.filter_app, length_app.
    destruct (episode_step_cases p st f)
      as [(n & Hn & Hnone & Hstep)|(msg & Hstep)];
      rewrite Hstep in Ha; injection Ha as <- <-; simpl in *.
    + rewrite map_size_insert_None in Hsize by done.
      split; [lia|]. split; [lia|]. split; [done|]. split.
      * exists div. split; [done | by apply sublist_cons].
      * intros g [->|Hg]%elem_of_cons; [|by apply Hmem].
        right. exists n. apply Hmono1. by rewrite lookup_insert_eq.
    + rewrite length_app in Hsize, Hlog. simpl in *.
      split; [lia|]. split; [lia|]. split; [by rewrite Hinfo|]. split.
      * exists (f :: div). rewrite Hdiv, <- app_assoc. split; [done|].
        by apply sublist_skip.
      * intros g [->|Hg]%elem_of_cons; [|by apply Hmem].
        left. apply Hmono2. apply elem_of_app. right. left.
Qed.

(** X14.  For files with ASCII titles, on which the numeric test and the
    conversion of the first token are embedded exactly, [_get_episodes]
    returns and loses no file: every file is either mapped under an index or
    in the side list, the keys of the map and the files of the side list add
    up to the number of files, the side list keeps the order of the input,
    and each diverted file is reported by exactly one diagnostic of level
    info. *)
Theorem get_episodes_partition (files : list File) :
  ascii_titles files = true →
  ascii_preserving trunc_suffix_from_file_name →
  ∃ l st,
    get_episodes_state trunc_suffix_from_file_name files = (l, inr st)
    ∧ size (episodes st) + length (episode_index_not_found_files st)
      = length files
    ∧ sublist (episode_index_not_found_files st) files
    ∧ length (infos l) = length (episode_index_not_found_files st)
    ∧ ∀ f, f ∈ files →
           f ∈ episode_index_not_found_files st
           ∨ ∃ n, episodes st !! n = Some f.
Proof.
  intros _ _.
  destruct (get_episodes_state_unfold trunc_suffix_from_file_name files)
    as (l1 & l2 & st & Hst & Hloop).
  exists (l1 ++ l2), st. split; [done|].
  destruct (episode_loop_partition _ _ _ _ _ Hloop)
    as (Hsize & Hlog & Hinfo & (div & Hdiv & Hsub) & Hmem).
  simpl in *. rewrite map_size_empty in Hsize.
  split; [lia|]. split; [by rewrite Hdiv|]. split; [|done].
  assert (infos l1 = []) as Hl1.
  { destruct (get_file_name_prefix_returns files) as [l1' Hp].
    unfold get_episodes_state in Hst.
    rewrite (bind_returns _ _ _ _ _ _ Hp Hloop) in Hst. injection Hst as Hst.
    apply app_inv_tail in Hst as <-.
    unfold _get_file_name_prefix in Hp. destruct (0 <=? _)%Z; by injection Hp as <-. }
  unfold infos in *. rewrite List.filter_app, length_app, Hl1. simpl. lia.
Qed.



End EpisodeMap.

(** ** The TV analysis, once more *)

Section TVAnalysis.
Import TVAnalyzer Vocabulary.
Variable SEASON_ALIASES : list string.
Variable trunc_suffix_from_file_name : string → string.

Local Abbreviation entry := (season_entry SEASON_ALIASES trunc_suffix_from_file_name).
Local Abbreviation record := (record_season SEASON_ALIASES trunc_suffix_from_file_name).
Local Abbreviation key_of := (season_key SEASON_ALIASES).
Local Abbreviation media_root_of := (_find_media_root SEASON_ALIASES).
Local Abbreviation season_folders_of := (_find_season_folders SEASON_ALIASES).
Local Abbreviation builder_for := (builder_of SEASON_ALIASES).
Local Abbreviation analyze_tv := (analyze SEASON_ALIASES trunc_suffix_from_file_name).

(** X16.  For a tree whose file titles are ASCII, on which the numeric test
    of episode extraction is embedded exactly: the TV analysis raises
    exactly when some season folder of the analysed root has no number in
    its title while the media root has more than one child folder, and then
    it raises [SeasonIndexNotFoundException]; it raises nothing else, and in
    particular it returns for every such tree without season folder, media
    or not. *)
Theorem tv_analyze_raises_exactly (root : Folder) :
  Terms.ascii_titles (subtree_files root) = true →
  Terms.ascii_preserving trunc_suffix_from_file_name →
  (∀ e, outcome (analyze_tv root) = inl e
        ↔ e = SeasonIndexNotFoundException season_index_not_found_message
          ∧ (∃ s, s ∈ season_folders_of root ∧ unnumbered SEASON_ALIASES s)
          ∧ 1 < length (get_folders (media_root_of root)))
  ∧ (season_folders_of root = [] → ∃ md, outcome (analyze_tv root) = inr md).
Proof.
  intros _ _.
  assert (season_folders_of root = [] → ∃ md, outcome (analyze_tv root) = inr md)
    as Hflat.
  { intros Hnil.
    destruct (analyze_season_flat SEASON_ALIASES trunc_suffix_from_file_name
                (builder_for root) (media_root_of root) root Hnil) as [l Hl].
    eexists. apply outcome_analyze_returns. by rewrite Hl. }
  split; [|done]. intros e. split.
  - intros He.
    destruct (decide (season_folders_of root = [])) as [Hnil|Hne].
    { destruct (Hflat Hnil) as [md Hmd]. by rewrite Hmd in He. }
    destruct (season_folders_of root) as [|s0 r] eqn:Efolders; [done|].
    rewrite <- Efolders in *.
    assert ((∃ s, s ∈ season_folders_of root ∧ unnumbered SEASON_ALIASES s
                  ∧ 1 < length (get_folders (media_root_of root)))
            ∨ ∀ s, s ∈ season_folders_of root →
                   ¬ unnumbered SEASON_ALIASES s
                   ∨ length (get_folders (media_root_of root)) ≤ 1) as [Hex|Hall].
    { destruct (decide (1 < length (get_folders (media_root_of root))))
        as [Hlen|Hlen]; [|right; intros s _; right; lia].
      clear Efolders Hne He Hflat. induction (season_folders_of root) as [|s l IH].
      - right. by intros s ?%elem_of_nil.
      - destruct (decide (unnumbered SEASON_ALIASES s)) as [Hun|Hnum].
        + left. exists s. split; [left | done].
        + destruct IH as [(s' & Hs' & H)|Hall].
          * left. exists s'. split; [by right | done].
          * right. intros s' [->|Hs']%elem_of_cons; [by left | auto]. }
    + destruct Hex as (s & Hs & Hun & Hlen).
      rewrite (analyze_raises_unnumbered _ _ _ s Hs Hun Hlen) in He.
      injection He as <-. eauto.
    + destruct (season_loop_returns SEASON_ALIASES trunc_suffix_from_file_name
                  (builder_for root) (media_root_of root)
                  (season_folders_of root) ∅ Hall) as [l Hl].
      rewrite (outcome_analyze_returns _ _ root
                 (foldl (record (builder_for root) (media_root_of root)) ∅
                    (season_folders_of root))) in He; [done|].
      rewrite analyze_season_folders by done. by rewrite Hl.
  - intros (-> & (s & Hs & Hun) & Hlen).
    by apply (analyze_raises_unnumbered _ _ _ s).
Qed.

Lemma foldl_record_other builder media_root season_folders seasons idx :
  (∀ s, s ∈ season_folders → key_of s ≠ idx) →
  foldl (record builder media_root) seasons season_folders !! idx = seasons !! idx.
Proof.
  revert seasons. induction season_folders as [|s r IH]; intros seasons Hne; [done|].
  simpl. rewrite IH by (intros s' Hs'; apply Hne; by right).
  unfold record_season. rewrite lookup_insert_ne; [done|]. apply Hne. left.
Qed.

(** X17.  When several season folders yield the same index, the last of
    them in child order is the one recorded: the records of the earlier ones
    are overwritten.  With season folders, the number of recorded seasons is
    at most the number of season folders. *)
Theorem season_index_collision_last_wins (root : Folder) (md : Metadata)
        (before after : list Folder) (s : Folder) :
  outcome (analyze_tv root) = inr md →
  season_folders_of root = before ++ s :: after →
  (∀ s', s' ∈ after → key_of s' ≠ key_of s) →
  md_seasons md !! key_of s
  = Some (entry (builder_for root) (media_root_of root) s)
  ∧ size (md_seasons md) ≤ length (season_folders_of root).
Proof.
  intros Hmd Hsplit Hlast.
  destruct (analyze_seasons_inv _ _ _ _ Hmd) as [[Hnil _]|[_ ->]].
  { rewrite Hnil in Hsplit. by destruct before. }
  split.
  - rewrite Hsplit, foldl_app. simpl. rewrite foldl_record_other by done.
    unfold record_season. by rewrite lookup_insert_eq.
  - generalize (season_folders_of root). intros l.
    assert (∀ m, size (foldl (record (builder_for root) (media_root_of root)) m l)
                 ≤ size m + length l) as Hsize.
    { induction l as [|x l IH]; intros m; simpl; [lia|].
      etrans; [apply IH|]. unfold record_season.
      destruct (m !! key_of x) eqn:E.
      - rewrite map_size_insert_Some by done. lia.
      - rewrite map_size_insert_None by done. lia. }
    specialize (Hsize ∅). rewrite map_size_empty in Hsize. lia.
Qed.

End TVAnalysis.

(** Both "Season 1" and "Season 01" read 1: the second is recorded. *)
Lemma season_index_collision_last_wins_witness :
  ∃ md,
    outcome (TVAnalyzer.analyze Samples.aliases Samples.no_suffix
               Samples.show_twice_one) = inr md
    ∧ sm_media_root <$> md_seasons md !! 1%N = Some Samples.season_one_again.
Proof.
  assert (∃ md, outcome (TVAnalyzer.analyze Samples.aliases Samples.no_suffix
                           Samples.show_twice_one) = inr md) as [md Hmd]
    by (eexists; vm_compute; reflexivity).
  exists md. split; [exact Hmd|].
  destruct (season_index_collision_last_wins Samples.aliases Samples.no_suffix
              Samples.show_twice_one md [Samples.season_one] []
              Samples.season_one_again Hmd) as [Hlast _].
  - reflexivity.
  - intros s' Hs'. by apply elem_of_nil in Hs'.
  - change (Vocabulary.season_key Samples.aliases Samples.season_one_again)
      with 1%N in Hlast.
    rewrite Hlast. reflexivity.
Defined.

(** ** Prefix removal and the first word *)

Section FirstWord.
Import Vocabulary Terms TVAnalyzer.
Variable trunc_suffix_from_file_name : string → string.

Local Abbreviation extract :=
  (_extract_episode_index_from_file_name trunc_suffix_from_file_name).

Lemma joined_prefix_cons x a : joined_prefix (x :: a) = x +:+ " " +:+ joined_prefix a.
Proof.
  destruct a as [|y a].
  - unfold joined_prefix. simpl. by rewrite string_app_nil_r.
  - unfold joined_prefix.
    change (String.concat " " (x :: y :: a))
      with (x +:+ " " +:+ String.concat " " (y :: a)).
    by rewrite !string_app_assoc.
Qed.

Lemma concat_app_joined a b :
  b ≠ [] → String.concat " " (a ++ b) = joined_prefix a +:+ String.concat " " b.
Proof.
  intros Hb. induction a as [|x a IH]; [done|].
  rewrite joined_prefix_cons, !string_app_assoc, <- IH.
  change ((x :: a) ++ b) with (x :: (a ++ b)).
  destruct (a ++ b) as [|y l] eqn:E; [by destruct a, b|]. done.
Qed.

Lemma joined_prefix_nil a : joined_prefix a = "" → a = [].
Proof.
  destruct a as [|x a]; [done|]. rewrite joined_prefix_cons.
  destruct x; [|done]. by rewrite string_app_nil_l.
Qed.

(** X18.  When the suffix stripper leaves the normalized title as it is,
    the prefix consists of the first [k] words of the title, each followed
    by a space, and it does not occur again in the rest of the title, then
    the episode index of the file is the index of its word at position
    [k]. *)
Theorem extract_reads_word_after_prefix (file_name prefix : string) (k : nat)
        (w : string) :
  let title := replace_special_chars file_name in
  let words := PyStr.split " " title in
  trunc_suffix_from_file_name title = title →
  prefix = joined_prefix (take k words) →
  words !! k = Some w →
  (prefix = "" ∨ PyStr.contains prefix (String.concat " " (drop k words)) = false) →
  extract file_name prefix = index_of_token w.
Proof.
  intros title words Htrunc Hprefix Hw Hrest.
  assert (drop k words = w :: drop (S k) words) as Hdrop.
  { rewrite <- (take_drop_middle words k w Hw) at 1.
    rewrite drop_app_length'; [done|]. rewrite length_take.
    apply lookup_lt_Some in Hw. lia. }
  assert (title = prefix +:+ String.concat " " (drop k words)) as Htitle.
  { rewrite Hprefix, <- concat_app_joined by (by rewrite Hdrop).
    rewrite take_drop. symmetry. apply (concat_split " "). }
  assert (PyStr.split " " (String.concat " " (drop k words))
          = w :: drop (S k) words) as Hsplit.
  { rewrite Hdrop. apply (split_concat " "). intros x Hx.
    apply (split_tokens_sep_free " " title). rewrite <- Hdrop in Hx.
    fold words. rewrite <- (take_drop k words). apply elem_of_app. by right. }
  unfold _extract_episode_index_from_file_name, prefix_removed.
  fold title. rewrite Htrunc.
  destruct prefix as [|c old].
  - rewrite replace_nil_old.
    symmetry in Hprefix. apply joined_prefix_nil in Hprefix.
    assert (k = 0) as ->.
    { destruct k; [done|]. destruct words; [done | discriminate]. }
    fold words. by destruct words as [|w0 r]; [|injection Hw as ->].
  - destruct Hrest as [?|Hrest]; [done|].
    rewrite Htitle.
    rewrite <- (string_app_nil_l (String c old +:+ _)).
    rewrite replace_first_occurrence.
    + rewrite !string_app_nil_l, replace_no_occurrence by done.
      by rewrite Hsplit.
    + intros a1 a2 Ha Hne. destruct a1; [|by rewrite string_app_cons in Ha].
      rewrite string_app_nil_l in Ha. by subst a2.
Qed.

End FirstWord.

(** With the prefix ["Show Name "] the index of "Show.Name.S01E07" is read
    from its third word. *)
Lemma extract_reads_word_after_prefix_witness :
  TVAnalyzer._extract_episode_index_from_file_name Samples.no_suffix
    "Show.Name.S01E07" "Show Name "
  = inr 7%N.
Proof.
  rewrite (extract_reads_word_after_prefix Samples.no_suffix
             "Show.Name.S01E07" "Show Name " 2 "S01E07").
  - reflexivity.
  - reflexivity.
  - reflexivity.
  - reflexivity.
  - right. reflexivity.
Defined.

(** ** Season numbers, the order of the table and the TV media root *)

Section SeasonNumber.
Import Vocabulary Terms TVAnalyzer.
Variable SEASON_ALIASES : list string.

(** X19.  [extract_season_index] reads the first run of digits of a name
    that contains a season alias, in whatever letter case the alias is
    written; it yields nothing for a name without alias, whatever digits it
    has, and nothing for a name without digit. *)
Theorem extract_season_index_reads_number (folder_name : string) :
  (∀ alias p x q a d b,
     alias ∈ SEASON_ALIASES → PyStr.lower x = alias →
     folder_name = p +:+ x +:+ q →
     folder_name = a +:+ d +:+ b →
     digit_free a = true → PyStr.isnumeric d = true → no_leading_digit b = true →
     extract_season_index SEASON_ALIASES folder_name = Some (PyStr.int d))
  ∧ (contains_season_keyword SEASON_ALIASES folder_name = false →
     extract_season_index SEASON_ALIASES folder_name = None)
  ∧ (digit_free folder_name = true →
     extract_season_index SEASON_ALIASES folder_name = None).
Proof.
  unfold extract_season_index. split; [|split].
  - intros alias p x q a d b Hin Hx Hname Hnum Ha Hd Hb.
    assert (contains_season_keyword SEASON_ALIASES folder_name = true) as ->.
    { rewrite Hname. unfold contains_season_keyword.
      apply existsb_exists. exists alias. split; [by apply list_elem_of_In|].
      by rewrite !lower_app, Hx, contains_app. }
    rewrite Hnum. by apply extract_number_run.
  - by intros ->.
  - intros Hfree. destruct (negb _); [done|]. by apply extract_number_none.
Qed.

(** X20.  The media root of the TV analyzer is the analysed folder or one of
    its immediate child folders.  With two or more season folders it is the
    analysed folder; with exactly one season folder and no other child that
    holds media directly it is that season folder, not the analysed
    folder. *)
Theorem tv_media_root_and_season_folders (root : Folder) :
  (_find_media_root SEASON_ALIASES root = root
   ∨ _find_media_root SEASON_ALIASES root ∈ get_folders root)
  ∧ (1 < length (_find_season_folders SEASON_ALIASES root) →
     _find_media_root SEASON_ALIASES root = root)
  ∧ (∀ s, _find_season_folders SEASON_ALIASES root = [s] →
          length (List.filter (qualifies SEASON_ALIASES) (get_folders root)) = 1 →
          _find_media_root SEASON_ALIASES root = s).
Proof.
  split; [|split].
  - unfold _find_media_root.
    destruct (List.filter _ _) as [|c [|c' r]] eqn:E; auto.
    right. apply list_elem_of_In.
    apply (proj1 (proj1 (filter_In (qualifies SEASON_ALIASES) c (get_folders root))
                    ltac:(rewrite E; by left))).
  - intros Hlen. apply media_root_of_two.
    rewrite season_folders_qualifying in Hlen.
    pose proof (length_bool_filter (season_like SEASON_ALIASES)
                  (List.filter (qualifies SEASON_ALIASES) (get_folders root))).
    lia.
  - intros s Hs Hone. rewrite season_folders_qualifying in Hs.
    unfold _find_media_root.
    destruct (List.filter (qualifies SEASON_ALIASES) (get_folders root))
      as [|c [|c' r]]; [done| |done].
    simpl in Hs. destruct (season_like SEASON_ALIASES c); [|done].
    by injection Hs.
Qed.

End SeasonNumber.

Section TableOrder.
Import Vocabulary Terms TVAnalyzer.

(** X21.  The frequency table keeps first-seen order: it begins with the
    tokens of the first file, token [i] at index [i], whatever files follow,
    and the count kept there is the number of files with that word at that
    position. *)
Theorem saved_tokens_first_file_order (f : File) (rest : list File) (i : nat)
        (w : string) :
  file_tokens f !! i = Some w →
  ∃ t, saved_tokens_of (f :: rest) !! i = Some t
       ∧ tok_idx t = i ∧ get_str t = w
       ∧ get_count t = token_occurrences (f :: rest) i w.
Proof.
  intros Hw.
  pose proof (table_of_foldl (stream (f :: rest))) as (_ & _ & Hcnt).
  rewrite <- saved_tokens_of_stream in Hcnt.
  assert (∃ extra, token_key <$> saved_tokens_of (f :: rest)
                   = indexed_from 0 (file_tokens f) ++ extra) as [extra Hkeys].
  { rewrite saved_tokens_of_stream, stream_cons, foldl_app.
    rewrite (foldl_upd_fresh (indexed_from 0 (file_tokens f)) [])
      by apply NoDup_indexed_from.
    destruct (foldl_upd_keys_prefix (stream rest)
                ([] ++ (token_of <$> indexed_from 0 (file_tokens f))))
      as [extra ->].
    exists extra. f_equal. csimpl. apply fmap_key_token_of. }
  assert ((token_key <$> saved_tokens_of (f :: rest)) !! i = Some (i, w)) as Hi.
  { rewrite Hkeys, lookup_app_l.
    - by rewrite lookup_indexed_from, Hw.
    - apply lookup_lt_is_Some. rewrite lookup_indexed_from, Hw. by eexists. }
  rewrite list_lookup_fmap in Hi.
  destruct (saved_tokens_of (f :: rest) !! i) as [t|] eqn:Ht; [|done].
  injection Hi as Hidx Hstr. exists t. split; [done|].
  assert (t ∈ saved_tokens_of (f :: rest)) as Hin
    by (apply list_elem_of_lookup; eauto).
  rewrite (Hcnt t Hin). unfold token_key. rewrite Hidx, Hstr.
  by rewrite occurrences_stream.
Qed.

End TableOrder.

(** ** The extras on sample inputs *)

(** The number of "My SEASON 02 (2019)" is 2. *)
Lemma extract_season_index_reads_number_witness :
  extract_season_index Samples.aliases "My SEASON 02 (2019)" = Some 2%N.
Proof.
  refine (proj1 (extract_season_index_reads_number Samples.aliases
                   "My SEASON 02 (2019)")
            "season" "My " "SEASON" " 02 (2019)" "My SEASON " "02" " (2019)"
            _ eq_refl eq_refl eq_refl eq_refl eq_refl eq_refl).
  left.
Defined.

(** With two season folders the root is the media root. *)
Lemma tv_media_root_and_season_folders_witness :
  TVAnalyzer._find_media_root Samples.aliases Samples.show_twice_one
  = Samples.show_twice_one.
Proof.
  refine (proj1 (proj2 (tv_media_root_and_season_folders Samples.aliases
                          Samples.show_twice_one)) _).
  vm_compute. lia.
Defined.

(** The second word of the first file is the second entry of the table. *)
Lemma saved_tokens_first_file_order_witness :
  ∃ t, TVAnalyzer.saved_tokens_of
         [Samples.media "Show 01"; Samples.media "Show 02"] !! 1 = Some t
       ∧ get_str t = "01" ∧ get_count t = 1.
Proof.
  destruct (saved_tokens_first_file_order (Samples.media "Show 01")
              [Samples.media "Show 02"] 1 "01" eq_refl)
    as (t & Ht & _ & Hstr & Hcount).
  exists t. split; [exact Ht|]. split; [exact Hstr|]. exact Hcount.
Defined.

(** Two files with the same words have no prefix. *)
Lemma prefix_discovery_all_shared_witness :
  TVAnalyzer._get_file_name_prefix
    [Samples.media "Show 01"; Samples.media "Show.01"]
  = ([LogWarning "Failed to found file prefix from file name"], inr "").
Proof.
  apply prefix_discovery_all_shared.
  intros f i w Hf Hw.
  repeat (apply elem_of_cons in Hf as [->|Hf];
          [destruct i as [|[|i]]; vm_compute in Hw; try discriminate Hw;
           injection Hw as <-; vm_compute; lia|]).
  by apply elem_of_nil in Hf.
Defined.


(** The media of [movie] lies in its subfolder "disc". *)
Lemma movie_find_media_root_first_witness :
  MovieAnalyzer._find_media_root Samples.movie = inr Samples.movie_disc
  ∧ MovieAnalyzer.has_media Samples.movie_disc = true.
Proof.
  assert (MovieAnalyzer._find_media_root Samples.movie = inr Samples.movie_disc)
    as H by reflexivity.
  split; [exact H|].
  exact (proj1 (proj1 (proj2 (movie_find_media_root_first Samples.movie))
                  Samples.movie_disc H)).
Defined.

Lemma movie_analyze_result_witness :
  outcome (MovieAnalyzer.analyze Samples.movie)
  = inr (mkMovieMetadata "Movie" "disc" Samples.movie Samples.movie_disc MOVIE
           [Samples.media "Movie 2020"] [Samples.subtitle "Movie srt"]).
Proof.
  exact (proj1 (proj2 (movie_analyze_result Samples.movie)
                  Samples.movie_disc eq_refl)).
Defined.

(** The subtitle of [archive_deep] lies two levels down and is not
    returned. *)
Lemma analyze_subtitles_direct_only_witness :
  length (diagnostics (GeneralMediaAnalyzer._analyze_subtitles Samples.archive_deep))
  = 1.
Proof.
  exact (proj1 (proj2 (analyze_subtitles_direct_only Samples.archive_deep))
           eq_refl).
Defined.

(** The episodes of [season_without_subtitles] are its direct media files. *)
Lemma get_media_files_subtree_witness :
  GeneralMediaAnalyzer._get_media_files Samples.season_without_subtitles
  = [Samples.media "Show 01"; Samples.media "Show 02"].
Proof.
  refine (proj1 (proj2 (get_media_files_subtree Samples.season_without_subtitles))
            _).
  discriminate.
Defined.

(** The search in [archive_deep] returns [archive_deep] itself. *)
Lemma archive_search_returns_root_only_witness :
  GeneralSubtitleExtractor._find_subtitle_containing_folder Samples.archive_deep
  = inr Samples.archive_deep
  ∧ Vocabulary.subtitle_in_subtree Samples.archive_deep.
Proof.
  assert (GeneralSubtitleExtractor._find_subtitle_containing_folder
            Samples.archive_deep = inr Samples.archive_deep) as H by reflexivity.
  split; [exact H|].
  exact (proj2 (proj1 (archive_search_returns_root_only Samples.archive_deep)
                  Samples.archive_deep H)).
Defined.

(** Of three files, one without index and one with a taken index, one is
    mapped and two are diverted. *)
Lemma get_episodes_partition_witness :
  ∃ l st,
    TVAnalyzer.get_episodes_state Samples.no_suffix
      [Samples.media "Ep 1"; Samples.media "Extras"; Samples.media "Ep 01"]
    = (l, inr st)
    ∧ size (TVAnalyzer.episodes st)
      + length (TVAnalyzer.episode_index_not_found_files st) = 3.
Proof.
  destruct (get_episodes_partition Samples.no_suffix
              [Samples.media "Ep 1"; Samples.media "Extras"; Samples.media "Ep 01"]
              eq_refl (λ s H, H))
    as (l & st & Hst & Hsize & _).
  exists l, st. split; [exact Hst | exact Hsize].
Defined.

(** An unnumbered season folder beside a folder with media raises. *)
Lemma tv_analyze_raises_exactly_witness :
  outcome (TVAnalyzer.analyze Samples.aliases Samples.no_suffix
             Samples.season_beside_bonus)
  = inl (SeasonIndexNotFoundException TVAnalyzer.season_index_not_found_message).
Proof.
  apply (proj1 (tv_analyze_raises_exactly Samples.aliases Samples.no_suffix
                  Samples.season_beside_bonus eq_refl (λ s H, H))).
  split; [reflexivity|]. split.
  - exists Samples.lone_season_folder. split; [vm_compute; left | reflexivity].
  - vm_compute. lia.
Defined.
